(** * Gravitational memory: a shallow embedding of [booster.py]

    The development follows the layout of the Python module:
    the orbital state bank and the encodable unit ([GravitationalBit]),
    the fragment store with its keyword index ([GravitationalMemory]),
    and the boundary object ([LLMRAGBooster]) with the module-level
    [init].  Python integers are [Z], Python strings are [string]
    (code points 0..255), Python dictionaries whose iteration order is
    observed are association lists in insertion order, and the keyword
    index, whose order is never observed, is a [gmap]. *)

From Stdlib Require Import ZArith QArith Qround Lia List String Ascii Bool Sorted.
From stdpp Require Import base list strings gmap pretty.

Local Open Scope Z_scope.

(** ** Python runtime pieces the module relies on *)

(** Floating point numbers are never inspected by the properties below;
    the arithmetic the module performs on them is kept as an interface. *)
Class PyFloat (F : Type) := {
  f_of_Z : Z -> F;            (* int -> float conversion, also 0.0 and 1.0 *)
  f_neg_13_6 : F;             (* the literal -13.6 *)
  f_0_01 : F;                 (* the literal 0.01 *)
  f_0_3 : F;                  (* the literal 0.3 *)
  f_pi : F;                   (* math.pi *)
  fadd : F -> F -> F;
  fmul : F -> F -> F;
  fdiv : F -> F -> F;
  fmod : F -> F -> F
}.

(** [random.random()] reads and advances the generator of the [random]
    module. *)
Class PyRandom (F G : Type) := {
  random : G -> F * G
}.

(** Truth value of an integer used as a condition. *)
Definition truthy (z : Z) : bool := negb (z =? 0).

(** [range(a, b)] *)
Definition range (a b : Z) : list Z :=
  map (fun k => a + Z.of_nat k) (seq 0 (Z.to_nat (b - a))).

(** [enumerate(l)] *)
Fixpoint enumerate_from {A} (i : Z) (l : list A) : list (Z * A) :=
  match l with
  | [] => []
  | x :: r => (i, x) :: enumerate_from (i + 1) r
  end.

Definition enumerate {A} (l : list A) : list (Z * A) := enumerate_from 0 l.

(** Outcome of a call that may raise. *)
Inductive exn : Type :=
  | ValueError
  | KeyError (key : string)
  | IndexError
  | TypeError
  | AttributeError
  | InvalidConfiguration
  | BoundaryError (detail : string).   (* raised inside [requests] or [response.json()] *)

Inductive outcome (A : Type) : Type :=
  | Returned (a : A)
  | Raised (e : exn).
Arguments Returned {A} a.
Arguments Raised {A} e.

#[global] Instance outcome_ret : MRet outcome := fun A a => Returned a.
#[global] Instance outcome_bind : MBind outcome := fun A B k o =>
  match o with
  | Returned a => k a
  | Raised e => Raised e
  end.

(** *** Strings *)

Definition nl : string := String (ascii_of_nat 10) EmptyString.

Definition len (s : string) : Z := Z.of_nat (String.length s).

(** Code points below 256 that [str.split()] treats as whitespace. *)
Definition is_space (c : ascii) : bool :=
  let k := nat_of_ascii c in
  ((9 <=? k) && (k <=? 13) || (28 <=? k) && (k <=? 32)
   || (k =? 133) || (k =? 160))%nat.

(** [str.lower()] on one code point below 256. *)
Definition lower_char (c : ascii) : ascii :=
  let k := nat_of_ascii c in
  if ((65 <=? k) && (k <=? 90)
      || (192 <=? k) && (k <=? 222) && negb (k =? 215))%nat
  then ascii_of_nat (k + 32) else c.

Fixpoint lower (s : string) : string :=
  match s with
  | EmptyString => EmptyString
  | String c r => String (lower_char c) (lower r)
  end.

(** [s.split()]: [cur] is the word being read. *)
Fixpoint split_from (cur : string) (s : string) : list string :=
  match s with
  | EmptyString => if String.eqb cur EmptyString then [] else [cur]
  | String c r =>
      if is_space c
      then (if String.eqb cur EmptyString then split_from EmptyString r
            else cur :: split_from EmptyString r)
      else split_from (cur +:+ String c EmptyString) r
  end.

Definition split (s : string) : list string := split_from EmptyString s.

(** The argument of [strip] in both tokenizers:
    [. , ! ? ; : double-quote ' ( ) [ ] { }]. *)
Definition punctuation : list ascii :=
  [ "."%char; ","%char; "!"%char; "?"%char; ";"%char; ":"%char;
    ascii_of_nat 34; "'"%char; "("%char; ")"%char; "["%char; "]"%char;
    "{"%char; "}"%char ].

Definition in_chars (chars : list ascii) (c : ascii) : bool :=
  existsb (Ascii.eqb c) chars.

Fixpoint lstrip (chars : list ascii) (s : string) : string :=
  match s with
  | EmptyString => EmptyString
  | String c r => if in_chars chars c then lstrip chars r else s
  end.

Fixpoint rstrip (chars : list ascii) (s : string) : string :=
  match s with
  | EmptyString => EmptyString
  | String c r =>
      let r' := rstrip chars r in
      if String.eqb r' EmptyString && in_chars chars c
      then EmptyString else String c r'
  end.

Definition strip (chars : list ascii) (s : string) : string :=
  rstrip chars (lstrip chars s).

(** [sep.join(parts)] *)
Definition join (sep : string) (parts : list string) : string :=
  String.concat sep parts.

(** [needle in hay] for two strings. *)
Fixpoint is_substring (needle hay : string) : bool :=
  String.prefix needle hay ||
  match hay with
  | EmptyString => false
  | String _ r => is_substring needle r
  end.

(** [l[i:j]] for [0 <= i]. *)
Definition slice {A} (i j : Z) (l : list A) : list A :=
  take (Z.to_nat (j - i)) (drop (Z.to_nat i) l).

(** [l[:k]]; a negative [k] counts from the end. *)
Definition slice_to {A} (k : Z) (l : list A) : list A :=
  if 0 <=? k then take (Z.to_nat k) l
  else take (Z.to_nat (Z.of_nat (length l) + k)) l.

(** [range(a, b, step)]; a zero step raises [ValueError]. *)
Definition range_step (a b step : Z) : outcome (list Z) :=
  if step =? 0 then Raised ValueError
  else
    let count :=
      if 0 <? step then (b - a + step - 1) / step
      else (a - b - step - 1) / (- step) in
    Returned (map (fun k => a + Z.of_nat k * step) (seq 0 (Z.to_nat count))).

(** *** Integers from text *)

Definition hex_digit (c : ascii) : option Z :=
  let k := Z.of_nat (nat_of_ascii c) in
  if (48 <=? k) && (k <=? 57) then Some (k - 48)
  else if (97 <=? k) && (k <=? 102) then Some (k - 87)
  else if (65 <=? k) && (k <=? 70) then Some (k - 55)
  else None.

Fixpoint int16_from (acc : Z) (s : string) : outcome Z :=
  match s with
  | EmptyString => Returned acc
  | String c r =>
      match hex_digit c with
      | Some d => int16_from (16 * acc + d) r
      | None => Raised ValueError
      end
  end.

(** [int(s, 16)] on a plain run of hexadecimal digits, the only form
    [hexdigest()] produces; anything else raises [ValueError]. *)
Definition int16 (s : string) : outcome Z :=
  match s with
  | EmptyString => Raised ValueError
  | _ => int16_from 0 s
  end.

(** What [hexdigest()] of an MD5 object looks like: 32 hexadecimal digits. *)
Definition is_hexdigest (s : string) : bool :=
  (String.length s =? 32)%nat &&
  forallb (fun c => match hex_digit c with Some _ => true | None => false end)
          (list_ascii_of_string s).

(** [hashlib.md5(text.encode()).hexdigest()].  On the strings of this
    development, code points below 256, [text.encode()] always
    succeeds; a lone surrogate, on which it raises [UnicodeEncodeError],
    is not a value of [string]. *)
Class PyHashlib := {
  md5_hexdigest : string -> string;
  md5_hexdigest_shape : forall text, is_hexdigest (md5_hexdigest text) = true
}.

(** *** Insertion-ordered dictionaries with string keys *)

Definition dict (V : Type) : Type := list (string * V).

Fixpoint dict_get {V} (d : dict V) (k : string) : option V :=
  match d with
  | [] => None
  | (k', v) :: r => if String.eqb k' k then Some v else dict_get r k
  end.

(** [d[k] = v]: an existing key keeps its position. *)
Fixpoint dict_set {V} (d : dict V) (k : string) (v : V) : dict V :=
  match d with
  | [] => [(k, v)]
  | (k', v') :: r =>
      if String.eqb k' k then (k', v) :: r else (k', v') :: dict_set r k v
  end.

Definition dict_keys {V} (d : dict V) : list string := map fst d.

(** [sorted(xs, key=key, reverse=True)]: the sort is stable, so an
    element moves left only past elements of strictly larger key. *)
Fixpoint insert_desc {A} (key : A -> Z) (x : A) (sorted : list A) : list A :=
  match sorted with
  | [] => [x]
  | y :: r => if key x <? key y then y :: insert_desc key x r else x :: y :: r
  end.

Definition sorted_reverse {A} (key : A -> Z) (xs : list A) : list A :=
  foldr (insert_desc key) [] xs.

(** *** Vocabulary for the ranking statements *)

(** The ids of [ids] in order of first appearance. *)
Fixpoint first_occurrences (ids : list string) : list string :=
  match ids with
  | [] => []
  | x :: r => x :: filter (fun y => y <> x) (first_occurrences r)
  end.

(** [x] may stand before [y] in a list sorted by decreasing key. *)
Definition descending {A} (key : A -> Z) (x y : A) : Prop := key y <= key x.

(** How many times [c] appears in [ids]. *)
Definition occurrences (c : string) (ids : list string) : Z :=
  Z.of_nat (length (filter (fun y => y = c) ids)).

(** A string without a whitespace character, and a word: such a string
    that is not empty. *)
Fixpoint no_space (s : string) : bool :=
  match s with
  | EmptyString => true
  | String c r => negb (is_space c) && no_space r
  end.

Definition is_word (w : string) : bool :=
  negb (String.eqb w EmptyString) && no_space w.

(** The chunk ids the scoring loops visit: for each query word in turn,
    the index list of that word from front to back. *)
Definition hits (idx : gmap string (list string)) (words : list string) : list string :=
  flat_map (fun w => default [] (idx !! w)) words.

Section Booster.
Context {F G : Type} `{PyFloat F} `{PyRandom F G} `{PyHashlib}.

(** ** GravitationalBit *)

Record OrbitalState := mkOrbitalState {
  n : Z;
  l : Z;
  m : Z;
  occupied : Z;      (* False is 0; [encode] stores the int [(value >> i) & 1] *)
  energy : F;
  phase : F
}.

Record GravitationalBit := mkGravitationalBit {
  n_max : Z;
  nucleus_field : F;
  states : list OrbitalState;
  operation_count : Z
}.

(** The three nested loops of [__init__]. *)
Definition orbital_states (n_max : Z) : list OrbitalState :=
  flat_map (fun n =>
    flat_map (fun l =>
      map (fun m =>
        mkOrbitalState n l m 0 (fdiv f_neg_13_6 (f_of_Z (n * n))) (f_of_Z 0))
        (range (- l) (l + 1)))
      (range 0 n))
    (range 1 (n_max + 1)).

(** [GravitationalBit.__init__]: the body has no test on
    [compression_level] and no [raise]. *)
Definition GravitationalBit_init (compression_level : Z) : outcome GravitationalBit :=
  Returned (mkGravitationalBit compression_level (f_of_Z 1)
              (orbital_states compression_level) 0).

(** Number of slots of a unit built at level [L]. *)
Definition slot_count (L : Z) : Z := Z.of_nat (length (orbital_states L)).

(** [len(bit.states)] *)
Definition len_states (b : GravitationalBit) : Z := Z.of_nat (length (states b)).

(** Loop body of [encode], over [enumerate(self.states)]. *)
Fixpoint encode_loop (value : Z) (ss : list (Z * OrbitalState)) (g : G)
  : list OrbitalState * G :=
  match ss with
  | [] => ([], g)
  | (i, s) :: rest =>
      let occ := Z.land (Z.shiftr value i) 1 in
      let '(ph, g1) :=
        if truthy occ
        then (let '(r, g') := random g in (fmul (fmul r (f_of_Z 2)) f_pi, g'))
        else (f_of_Z 0, g) in
      let '(rest', g2) := encode_loop value rest g1 in
      (mkOrbitalState (n s) (l s) (m s) occ (energy s) ph :: rest', g2)
  end.

Definition encode (b : GravitationalBit) (value : Z) (g : G) : GravitationalBit * G :=
  let '(ss, g') := encode_loop value (enumerate (states b)) g in
  (mkGravitationalBit (n_max b) (nucleus_field b) ss (operation_count b + 1), g').

(** Loop body of [decode]. *)
Fixpoint decode_loop (value : Z) (ss : list (Z * OrbitalState)) : Z :=
  match ss with
  | [] => value
  | (i, s) :: rest =>
      decode_loop (if truthy (occupied s) then Z.lor value (Z.shiftl 1 i) else value) rest
  end.

(** [decode] returns the value and bumps the operation counter. *)
Definition decode (b : GravitationalBit) : Z * GravitationalBit :=
  (decode_loop 0 (enumerate (states b)),
   mkGravitationalBit (n_max b) (nucleus_field b) (states b) (operation_count b + 1)).

Definition propagate_state (field dt : F) (s : OrbitalState) : OrbitalState :=
  if truthy (occupied s)
  then mkOrbitalState (n s) (l s) (m s) (occupied s) (energy s)
         (fmod (fadd (phase s) (fmul (fmul (energy s) dt) field))
               (fmul (f_of_Z 2) f_pi))
  else s.

Definition propagate (b : GravitationalBit) (dt : F) : GravitationalBit :=
  mkGravitationalBit (n_max b) (nucleus_field b)
    (map (propagate_state (nucleus_field b) dt) (states b))
    (operation_count b + 1).

Definition verify_integrity (b : GravitationalBit) (original_value : Z)
  : bool * GravitationalBit :=
  let '(decoded, b') := decode b in
  (decoded =? original_value, b').

(** A sequence of [propagate] calls, one per element of [dts]. *)
Definition propagate_all (b : GravitationalBit) (dts : list F) : GravitationalBit :=
  fold_left propagate dts b.


(** ** GravitationalMemory *)

(** One value of [self.storage]. *)
Record Fragment := mkFragment {
  bit : GravitationalBit;
  text : string;
  hash : Z;
  integrity : bool
}.

Record Stats := mkStats {
  total_chunks : Z;
  total_bits : Z;
  indexed_keywords : Z
}.

Record GravitationalMemory := mkGravitationalMemory {
  compression_level : Z;
  storage : dict Fragment;               (* chunk_id -> fragment, insertion order *)
  index : gmap string (list string);     (* keyword -> chunk ids, append order *)
  stats : Stats
}.

Definition GravitationalMemory_init (compression_level : Z) : GravitationalMemory :=
  mkGravitationalMemory compression_level [] ∅ (mkStats 0 0 0).

(** The keyword loop of [store_chunk], one word. *)
Definition index_word (chunk_id : string) (idx : gmap string (list string))
    (word : string) : gmap string (list string) :=
  let word_clean := strip punctuation word in
  if 3 <? len word_clean
  then <[word_clean := default [] (idx !! word_clean) ++ [chunk_id]]> idx
  else idx.

(** The dictionary returned by [store_chunk]. *)
Record ChunkSummary := mkChunkSummary {
  summary_chunk_id : string;
  summary_states : Z;
  summary_integrity : bool
}.

Definition store_chunk (self : GravitationalMemory) (g : G)
    (chunk_id text : string) : outcome (ChunkSummary * GravitationalMemory * G) :=
  bit0 ← GravitationalBit_init (compression_level self);
  text_hash ← int16 (md5_hexdigest text);
  let '(bit1, g1) := encode bit0 (text_hash mod 2 ^ len_states bit0) g in
  let '(original, bit2) := decode bit1 in
  let bit3 := propagate bit2 f_0_01 in
  let '(integrity, bit4) := verify_integrity bit3 original in
  let storage' := dict_set (storage self) chunk_id
                    (mkFragment bit4 text text_hash integrity) in
  let index' := fold_left (index_word chunk_id) (split (lower text)) (index self) in
  let stats' := mkStats (total_chunks (stats self) + 1)
                        (total_bits (stats self) + 1)
                        (Z.of_nat (size index')) in
  mret (mkChunkSummary chunk_id (len_states bit4) integrity,
        mkGravitationalMemory (compression_level self) storage' index' stats',
        g1).

(** A run of [store_chunk] calls on one memory, one call per
    [(chunk_id, text)] pair. *)
Fixpoint store_chunks (self : GravitationalMemory) (g : G)
    (calls : list (string * string)) : outcome (GravitationalMemory * G) :=
  match calls with
  | [] => mret (self, g)
  | (chunk_id, text) :: rest =>
      '(_, self', g') ← store_chunk self g chunk_id text;
      store_chunks self' g' rest
  end.

(** The chunk loop of [store_document]: [chunks] is the list being
    appended to. *)
Fixpoint store_document_loop (self : GravitationalMemory) (g : G)
    (words : list string) (chunk_size : Z) (starts : list Z) (chunks : list string)
    : outcome (list string * GravitationalMemory * G) :=
  match starts with
  | [] => mret (chunks, self, g)
  | i :: rest =>
      let chunk_text := join " " (slice i (i + chunk_size) words) in
      let chunk_id := substring 0 8 (md5_hexdigest chunk_text) in
      '(_, self', g') ← store_chunk self g chunk_id chunk_text;
      store_document_loop self' g' words chunk_size rest (chunks ++ [chunk_id])
  end.

(** The [(chunk_id, chunk_text)] pairs that loop hands to
    [store_chunk], one per start position. *)
Definition document_calls (words : list string) (chunk_size : Z) (starts : list Z)
  : list (string * string) :=
  map (fun i =>
         let chunk_text := join " " (slice i (i + chunk_size) words) in
         (substring 0 8 (md5_hexdigest chunk_text), chunk_text))
      starts.

(** The dictionary returned by [store_document]; the quotient is kept
    exact. *)
Record DocumentSummary := mkDocumentSummary {
  doc_chunks : Z;
  doc_bits : Z;
  doc_compression_ratio : Q;
  doc_indexed_keywords : Z;
  doc_integrity : string
}.

Definition store_document (self : GravitationalMemory) (g : G)
    (text : string) (chunk_size : Z)
    : outcome (DocumentSummary * GravitationalMemory * G) :=
  let words := split text in
  starts ← range_step 0 (Z.of_nat (length words)) chunk_size;
  '(chunks, self', g') ← store_document_loop self g words chunk_size starts [];
  let original_size := len text in
  let compressed_size := total_bits (stats self') * compression_level self' ^ 2 in
  mret (mkDocumentSummary
          (Z.of_nat (length chunks))
          (total_bits (stats self'))
          (if 0 <? compressed_size
           then (inject_Z original_size / inject_Z compressed_size)%Q
           else 0%Q)
          (indexed_keywords (stats self'))
          "100%",
        self', g').

(** The query tokenizer: the comprehension of
    [retrieve_relevant_context]. *)
Definition query_words (query : string) : list string :=
  map (fun w => strip punctuation (lower w))
      (filter (fun w => 3 < len w) (split query)).

(** The index tokenizer: the words [store_chunk] files a chunk under. *)
Definition index_words (text : string) : list string :=
  filter (fun w => 3 < len w)
         (map (strip punctuation) (split (lower text))).

(** [scores[chunk_id] = scores.get(chunk_id, 0) + 1] *)
Definition bump (scores : dict Z) (chunk_id : string) : dict Z :=
  dict_set scores chunk_id (default 0 (dict_get scores chunk_id) + 1).

Definition score_word (idx : gmap string (list string)) (scores : dict Z)
    (word : string) : dict Z :=
  match idx !! word with
  | Some ids => fold_left bump ids scores
  | None => scores
  end.

Definition score_chunks (idx : gmap string (list string)) (words : list string)
  : dict Z :=
  fold_left (score_word idx) words [].

(** [scores.get], the sort key. *)
Definition score_of (scores : dict Z) (chunk_id : string) : Z :=
  default 0 (dict_get scores chunk_id).

(** The ranked chunk ids before the [[:top_k]] cut. *)
Definition ranked (scores : dict Z) : list string :=
  sorted_reverse (score_of scores) (dict_keys scores).

Definition top_chunks (self : GravitationalMemory) (query : string) (top_k : Z)
  : list string :=
  let scores := score_chunks (index self) (query_words query) in
  match scores with
  | [] => slice_to top_k (dict_keys (storage self))
  | _ => slice_to top_k (ranked scores)
  end.

Definition retrieve_relevant_context (self : GravitationalMemory)
    (query : string) (top_k : Z) : string :=
  let context_parts :=
    omap (fun chunk_id => text <$> dict_get (storage self) chunk_id)
         (top_chunks self query top_k) in
  join (nl +:+ nl) context_parts.


(** ** LLMRAGBooster *)

(** Values produced by [response.json()] and handed around by [ask]. *)
#[warnings="-register-all"]
Inductive pyval : Type :=
  | PNone
  | PBool (b : bool)
  | PInt (z : Z)
  | PFloat (x : F)
  | PStr (s : string)
  | PList (items : list pyval)
  | PDict (items : list (string * pyval)).

(** [key in data] for a string [key]. *)
Definition py_contains (key : string) (data : pyval) : outcome bool :=
  match data with
  | PDict d => Returned (match dict_get d key with Some _ => true | None => false end)
  | PList items =>
      Returned (existsb (fun v => match v with
                                  | PStr s => String.eqb s key
                                  | _ => false
                                  end) items)
  | PStr s => Returned (is_substring key s)
  | _ => Raised TypeError
  end.

(** [data[key]] for a string [key]. *)
Definition py_getitem (data : pyval) (key : string) : outcome pyval :=
  match data with
  | PDict d => match dict_get d key with
               | Some v => Returned v
               | None => Raised (KeyError key)
               end
  | _ => Raised TypeError
  end.

(** [data[0]]; the keys of a decoded JSON object are strings. *)
Definition py_getitem_0 (data : pyval) : outcome pyval :=
  match data with
  | PList (x :: _) => Returned x
  | PList [] => Raised IndexError
  | PStr (String c _) => Returned (PStr (String c EmptyString))
  | PStr EmptyString => Raised IndexError
  | PDict _ => Raised (KeyError "0")
  | _ => Raised TypeError
  end.

(** [data.get(key, fallback)] *)
Definition py_get (data : pyval) (key : string) (fallback : pyval) : outcome pyval :=
  match data with
  | PDict d => Returned (default fallback (dict_get d key))
  | _ => Raised AttributeError
  end.

Variable py_str : pyval -> string.      (* [str(data)] *)
Variable exn_str : exn -> string.       (* [str(e)] *)

(** The completion boundary. *)
Variable Response : Type.
Variable requests_post :
  string -> dict string -> pyval -> Z -> outcome Response.  (* url, headers, json, timeout *)
Variable response_json : Response -> outcome pyval.

Record LLMRAGBooster := mkLLMRAGBooster {
  api_url : string;
  api_key : string;
  model : string;
  memory : GravitationalMemory;
  booster_compression_level : Z       (* [self.compression_level] *)
}.

Definition LLMRAGBooster_init (api_url api_key model : string) (compression_level : Z)
  : LLMRAGBooster :=
  mkLLMRAGBooster api_url api_key model
    (GravitationalMemory_init compression_level) compression_level.

(** The [# Build prompt] step of [ask]. *)
Definition build_prompt (self : LLMRAGBooster) (question : string)
    (use_memory : bool) (top_k : Z) : string :=
  if use_memory
  then
    let context := retrieve_relevant_context (memory self) question top_k in
    "Context (from gravitational memory):" +:+ nl +:+ context +:+ nl +:+ nl
      +:+ "Question: " +:+ question +:+ nl +:+ nl
      +:+ "Answer based on the context above:"
  else question.

Definition request_headers (self : LLMRAGBooster) : dict string :=
  let headers := [("Content-Type", "application/json")] in
  if String.eqb (api_key self) EmptyString then headers
  else dict_set headers "Authorization" ("Bearer " +:+ api_key self).

Definition request_json (self : LLMRAGBooster) (prompt : string) : pyval :=
  PDict [ ("model", PStr (model self));
          ("messages", PList [PDict [("role", PStr "user"); ("content", PStr prompt)]]);
          ("temperature", PFloat f_0_3);
          ("max_tokens", PInt 500) ].

(** The [# Handle different response formats] chain. *)
Definition extract_answer (data : pyval) : outcome pyval :=
  has_choices ← py_contains "choices" data;
  if has_choices : bool then
    choices ← py_getitem data "choices";
    first ← py_getitem_0 choices;
    message ← py_getitem first "message";
    py_getitem message "content"
  else
    has_content ← py_contains "content" data;
    if has_content : bool then
      content ← py_getitem data "content";
      match content with
      | PList _ =>
          first ← py_getitem_0 content;
          py_get first "text" (PStr (py_str data))
      | _ => Returned content
      end
    else
      has_response ← py_contains "response" data;
      if has_response : bool then py_getitem data "response"
      else
        has_message ← py_contains "message" data;
        if has_message : bool then
          message ← py_getitem data "message";
          py_get message "content" (PStr (py_str data))
        else Returned (PStr (py_str data)).

(** The body of the [try] block. *)
Definition call_llm (self : LLMRAGBooster) (prompt : string) : outcome pyval :=
  response ← requests_post (api_url self) (request_headers self)
               (request_json self prompt) 30;
  data ← response_json response;
  extract_answer data.

Definition ask (self : LLMRAGBooster) (question : string) (use_memory : bool)
    (top_k : Z) : pyval :=
  let prompt := build_prompt self question use_memory top_k in
  match call_llm self prompt with
  | Returned answer => answer
  | Raised e => PStr ("ERROR calling LLM: " +:+ exn_str e)
  end.

Record BoosterStats := mkBoosterStats {
  stats_chunks : Z;
  stats_bits : Z;
  stats_indexed_keywords : Z;
  stats_compression_level : Z;
  states_per_bit : Z;
  stats_integrity : string
}.

Definition get_stats (self : LLMRAGBooster) : BoosterStats :=
  let L := booster_compression_level self in
  mkBoosterStats
    (total_chunks (stats (memory self)))
    (total_bits (stats (memory self)))
    (indexed_keywords (stats (memory self)))
    L
    (L * (L + 1) * (2 * L + 1) / 6)
    "100%".

(** ** Module-level interface *)

Record InitResult := mkInitResult {
  success : bool;
  init_model : string;
  compression_states : Z
}.

(** [init]: the result and the new value of the global [_booster]. *)
Definition init (api_url api_key model_name : string) : InitResult * LLMRAGBooster :=
  (mkInitResult true model_name 1240,
   LLMRAGBooster_init api_url api_key model_name 15).

End Booster.

Arguments OrbitalState F : clear implicits.
Arguments GravitationalBit F : clear implicits.
Arguments Fragment F : clear implicits.
Arguments GravitationalMemory F : clear implicits.
Arguments LLMRAGBooster F : clear implicits.
Arguments pyval F : clear implicits.

(** ** The rest of the boundary object and the module-level functions *)

Section Loading.
Context {F G : Type} `{PyFloat F} `{PyRandom F G} `{PyHashlib}.

(** [LLMRAGBooster.load_document]: [store_document] on the booster's
    memory with the default chunk size; the booster comes back with
    the memory as the call left it. *)
Definition load_document (self : LLMRAGBooster F) (g : G) (text : string)
  : outcome (DocumentSummary * LLMRAGBooster F * G) :=
  '(summary, memory', g') ← store_document (memory self) g text 200;
  mret (summary,
        mkLLMRAGBooster (api_url self) (api_key self) (model self) memory'
          (booster_compression_level self),
        g').

(** What every memory built by [store_chunk] calls on a new memory of
    level [L] satisfies. *)
Definition memory_invariant (L : Z) (self : GravitationalMemory F) : Prop :=
  compression_level self = L /\
  total_chunks (stats self) = total_bits (stats self) /\
  indexed_keywords (stats self) = Z.of_nat (size (index self)) /\
  NoDup (dict_keys (storage self)) /\
  (forall w ids, index self !! w = Some ids ->
     3 < len w /\ ids <> [] /\
     forall c, c ∈ ids -> c ∈ dict_keys (storage self)) /\
  (forall c fragment, dict_get (storage self) c = Some fragment ->
     integrity fragment = true /\
     len_states (bit fragment) = slot_count (F:=F) L /\
     int16 (md5_hexdigest (text fragment)) = Returned (hash fragment) /\
     (decode (bit fragment)).1 = hash fragment mod 2 ^ slot_count (F:=F) L).

End Loading.

(** A dictionary a module-level function returns: the regular one, or
    the one with the single key ['error']. *)
Inductive reply (A : Type) : Type :=
  | Reply (a : A)
  | ErrorReply (error : string).
Arguments Reply {A} a.
Arguments ErrorReply {A} error.

(** The multiplication sign that closes the formatted ratio. *)
Definition times_sign : string := String (ascii_of_nat 215) EmptyString.

(** The regular dictionary of [load]. *)
Record LoadResult := mkLoadResult {
  load_success : bool;
  load_chunks : Z;
  load_compression_ratio : string;
  load_indexed_keywords : Z;
  load_integrity : string
}.

(** The functions of the module that read the global [_booster]; the
    global goes in as an argument and, where the call can change what it
    holds, comes back with the result. *)
Module Allpath.
Section Interface.
Context {F G : Type} `{PyFloat F} `{PyRandom F G} `{PyHashlib}.
Variable py_str : pyval F -> string.
Variable exn_str : exn -> string.
Variable Response : Type.
Variable requests_post : string -> dict string -> pyval F -> Z -> outcome Response.
Variable response_json : Response -> outcome (pyval F).
Variable format_2f : Q -> string.     (* [f"{x:.2f}"] *)

Definition load (_booster : option (LLMRAGBooster F)) (g : G) (text : string)
  : outcome (reply LoadResult * option (LLMRAGBooster F) * G) :=
  match _booster with
  | None => mret (ErrorReply "Not initialized. Call init() first.", None, g)
  | Some booster =>
      '(summary, booster', g') ← load_document booster g text;
      mret (Reply (mkLoadResult true
                     (doc_chunks summary)
                     (format_2f (doc_compression_ratio summary) +:+ times_sign)
                     (doc_indexed_keywords summary)
                     (doc_integrity summary)),
            Some booster', g')
  end.

Definition stats (_booster : option (LLMRAGBooster F)) : reply BoosterStats :=
  match _booster with
  | None => ErrorReply "Not initialized"
  | Some booster => Reply (get_stats booster)
  end.

Definition ask (_booster : option (LLMRAGBooster F)) (question : string) (top_k : Z)
  : pyval F :=
  match _booster with
  | None => PStr "ERROR: Not initialized. Call init() first."
  | Some booster =>
      ask py_str exn_str Response requests_post response_json booster question true top_k
  end.

End Interface.
End Allpath.

(** ** A concrete runtime, used to evaluate the model on examples *)

Module Concrete.

(** Exact rationals stand in for floats. *)
#[export] Instance QFloat : PyFloat Q := {|
  f_of_Z := inject_Z;
  f_neg_13_6 := (-136 # 10)%Q;
  f_0_01 := (1 # 100)%Q;
  f_0_3 := (3 # 10)%Q;
  f_pi := (355 # 113)%Q;
  fadd := Qplus;
  fmul := Qmult;
  fdiv := Qdiv;
  fmod := fun a b => (a - b * inject_Z (Qfloor (a / b)))%Q
|}.

(** A linear congruential generator; the state is the seed. *)
#[export] Instance LcgRandom : PyRandom Q Z := {|
  random := fun seed =>
    let seed' := (1103515245 * seed + 12345) mod 2147483648 in
    ((inject_Z seed' / inject_Z 2147483648)%Q, seed')
|}.

Definition hex_char (d : Z) : ascii :=
  match d with
  | 1 => "1" | 2 => "2" | 3 => "3" | 4 => "4" | 5 => "5" | 6 => "6" | 7 => "7"
  | 8 => "8" | 9 => "9" | 10 => "a" | 11 => "b" | 12 => "c" | 13 => "d"
  | 14 => "e" | 15 => "f" | _ => "0"
  end%char.

Fixpoint hex_digits (count : nat) (z : Z) (acc : string) : string :=
  match count with
  | O => acc
  | S k => hex_digits k (z / 16) (String (hex_char (z mod 16)) acc)
  end.

(** A polynomial checksum of the code points. *)
Fixpoint checksum (acc : Z) (s : string) : Z :=
  match s with
  | EmptyString => acc
  | String c r => checksum ((acc * 201105661150506325905340228922878627417 + Z.of_nat (nat_of_ascii c) + 1) mod 2 ^ 128) r
  end.

Definition checksum_hexdigest (text : string) : string :=
  hex_digits 32 (checksum 7 text) EmptyString.

Lemma hex_char_digit d : hex_digit (hex_char d) <> None.
Proof.
  destruct d as [|p|p]; try discriminate.
  do 4 (destruct p as [p|p|]; try discriminate).
Qed.

Lemma hex_digits_shape count : forall z acc,
  String.length (hex_digits count z acc) = (count + String.length acc)%nat /\
  forallb (fun c => match hex_digit c with Some _ => true | None => false end)
          (list_ascii_of_string (hex_digits count z acc))
  = forallb (fun c => match hex_digit c with Some _ => true | None => false end)
            (list_ascii_of_string acc).
Proof.
  induction count as [|k IH]; intros z acc; simpl.
  - split; reflexivity.
  - destruct (IH (z / 16) (String (hex_char (z mod 16)) acc)) as [Hl Hf].
    split.
    + rewrite Hl. simpl. lia.
    + rewrite Hf. simpl.
      pose proof (hex_char_digit (z mod 16)) as Hd.
      destruct (hex_digit (hex_char (z mod 16))); [reflexivity | congruence].
Qed.

Lemma checksum_hexdigest_shape text : is_hexdigest (checksum_hexdigest text) = true.
Proof.
  unfold is_hexdigest, checksum_hexdigest.
  destruct (hex_digits_shape 32 (checksum 7 text) EmptyString) as [Hl Hf].
  rewrite Hl, Hf. reflexivity.
Qed.

#[export] Instance ChecksumHashlib : PyHashlib := {|
  md5_hexdigest := checksum_hexdigest;
  md5_hexdigest_shape := checksum_hexdigest_shape
|}.

(** A small store: chunk [a] holds ["alpha"], chunk [b] holds
    ["bravo"], stored in that order at level 2. *)
Definition two_chunks : outcome (GravitationalMemory Q) :=
  '(_, m1, g1) ← store_chunk (GravitationalMemory_init 2) 1 "a" "alpha";
  '(_, m2, _) ← store_chunk m1 g1 "b" "bravo";
  mret m2.

Definition two_chunks_memory : GravitationalMemory Q :=
  match two_chunks with
  | Returned m => m
  | Raised _ => GravitationalMemory_init 2
  end.

(** A booster over that store, and a boundary that answers every
    post with one fixed decoded response. *)
Definition demo_booster : LLMRAGBooster Q :=
  mkLLMRAGBooster "http://localhost:11434/api/chat" "" "test-model"
    two_chunks_memory 2.

Definition answering (data : pyval Q)
  : string -> dict string -> pyval Q -> Z -> outcome (pyval Q) :=
  fun _ _ _ _ => Returned data.

(** [str(data)] for the one response of an example. *)
Definition fixed_str (shown : string) : pyval Q -> string := fun _ => shown.

(** [str(e)] *)
Definition show_exn (e : exn) : string :=
  match e with
  | ValueError => "invalid literal for int() with base 16"
  | KeyError key => "'" +:+ key +:+ "'"
  | IndexError => "list index out of range"
  | TypeError => "unsupported operand"
  | AttributeError => "object has no attribute 'get'"
  | InvalidConfiguration => "invalid configuration"
  | BoundaryError detail => detail
  end.

(** A stand-in for [f"{x:.2f}"]: it rounds the exact quotient, halves
    up, where Python rounds the binary double; the two differ on some
    values (1.625), so only statements for an arbitrary formatter are
    made about the code. *)
Definition format_2f_exact (x : Q) : string :=
  let cents := Qfloor (x * 100 + (1 # 2)) in
  pretty (cents / 100) +:+ "." +:+ pretty (cents mod 100 / 10)
    +:+ pretty (cents mod 10).

End Concrete.

(** * Properties *)

(** ** The encodable unit *)

Section BitFacts.
Context {F G : Type} `{PyFloat F} `{PyRandom F G}.

Lemma truthy_land_1 (v i : Z) :
  0 <= i -> truthy (Z.land (Z.shiftr v i) 1) = Z.testbit v i.
Proof.
  intros Hi. unfold truthy.
  change 1 with (Z.ones 1). rewrite Z.land_ones by lia.
  rewrite Z.testbit_odd. change (2 ^ 1) with 2.
  rewrite Zmod_odd. destruct (Z.odd (Z.shiftr v i)); reflexivity.
Qed.

Lemma encode_loop_length (v : Z) (ss : list (OrbitalState F)) :
  forall i g, length (encode_loop v (enumerate_from i ss) g).1 = length ss.
Proof.
  induction ss as [|s ss IH]; intros i g; simpl; [reflexivity|].
  destruct (truthy _); [destruct (random g) as [r g']|];
    simpl; (destruct (encode_loop v (enumerate_from (i + 1) ss) _) as [rest g2] eqn:E;
            simpl; f_equal; specialize (IH (i + 1)); erewrite <- IH; rewrite E; reflexivity).
Qed.

(** Bit [k] of what [decode] rebuilds from the slots [encode] wrote,
    the loops starting at slot index [i] with accumulator [acc]. *)
Lemma decode_encode_loop_testbit (v : Z) (ss : list (OrbitalState F)) :
  forall i g acc k, 0 <= i -> 0 <= k ->
    Z.testbit (decode_loop acc
                 (enumerate_from i (encode_loop v (enumerate_from i ss) g).1)) k
    = Z.testbit acc k
      || ((i <=? k) && (k <? i + Z.of_nat (length ss)) && Z.testbit v k).
Proof.
  induction ss as [|s ss IH]; intros i g acc k Hi Hk.
  - cbn [length enumerate_from encode_loop fst decode_loop].
    destruct (Z.leb_spec i k), (Z.ltb_spec k (i + Z.of_nat 0));
      cbn [andb]; rewrite ?orb_false_r; try reflexivity; lia.
  - cbn [enumerate_from encode_loop].
    set (occ := Z.land (Z.shiftr v i) 1).
    assert (Hocc : truthy occ = Z.testbit v i) by (apply truthy_land_1; lia).
    set (pg := if truthy occ then _ else _).
    destruct pg as [ph g1].
    destruct (encode_loop v (enumerate_from (i + 1) ss) g1) as [rest g2] eqn:E.
    cbn [fst enumerate_from decode_loop occupied].
    replace rest with (encode_loop v (enumerate_from (i + 1) ss) g1).1
      by (rewrite E; reflexivity).
    rewrite IH by lia.
    rewrite Hocc.
    assert (Hlen : Z.of_nat (length (s :: ss)) = 1 + Z.of_nat (length ss))
      by (cbn [length]; lia).
    rewrite Hlen.
    assert (Hacc : Z.testbit (if Z.testbit v i then Z.lor acc (Z.shiftl 1 i) else acc) k
                   = Z.testbit acc k || ((k =? i) && Z.testbit v i)).
    { destruct (Z.testbit v i); [|rewrite andb_false_r, orb_false_r; reflexivity].
      rewrite Z.lor_spec, Z.shiftl_spec, andb_true_r by lia. f_equal.
      destruct (Z.eqb_spec k i) as [->|Hne].
      - rewrite Z.sub_diag. reflexivity.
      - destruct (Z.ltb_spec k i) as [Hlt|Hge].
        + apply Z.testbit_neg_r. lia.
        + apply (Z.bits_above_log2 1 (k - i)); simpl; lia. }
    rewrite Hacc.
    repeat match goal with
           | |- context [?a =? ?b] => destruct (Z.eqb_spec a b)
           | |- context [?a <=? ?b] => destruct (Z.leb_spec a b)
           | |- context [?a <? ?b] => destruct (Z.ltb_spec a b)
           end;
      try lia; cbn [andb orb];
      rewrite ?orb_false_r, ?andb_false_r; try reflexivity.
    subst k. destruct (Z.testbit acc i), (Z.testbit v i); reflexivity.
Qed.

(** [decode] after [encode] keeps the low [len(states)] bits. *)
Lemma decode_encode (b : GravitationalBit F) (v : Z) (g : G) :
  (decode (encode b v g).1).1 = v mod 2 ^ len_states b.
Proof.
  unfold decode, encode, enumerate, len_states.
  destruct (encode_loop v (enumerate_from 0 (states b)) g) as [ss g'] eqn:E.
  cbn [fst states].
  replace ss with (encode_loop v (enumerate_from 0 (states b)) g).1
    by (rewrite E; reflexivity).
  apply Z.bits_inj'. intros k Hk.
  rewrite decode_encode_loop_testbit by lia.
  rewrite Z.bits_0. cbn [orb].
  replace (0 <=? k) with true by lia. cbn [andb].
  destruct (Z.ltb_spec k (0 + Z.of_nat (length (states b)))) as [Hlt|Hge]; cbn [andb].
  - rewrite Z.mod_pow2_bits_low by lia. reflexivity.
  - rewrite Z.mod_pow2_bits_high by lia. reflexivity.
Qed.

Lemma propagate_state_occupied (field dt : F) (s : OrbitalState F) :
  occupied (propagate_state field dt s) = occupied s.
Proof. unfold propagate_state. destruct (truthy (occupied s)); reflexivity. Qed.

Lemma decode_loop_propagate (field dt : F) (ss : list (OrbitalState F)) :
  forall i acc,
    decode_loop acc (enumerate_from i (map (propagate_state field dt) ss))
    = decode_loop acc (enumerate_from i ss).
Proof.
  induction ss as [|s ss IH]; intros i acc; simpl; [reflexivity|].
  rewrite propagate_state_occupied. apply IH.
Qed.

Lemma decode_propagate (b : GravitationalBit F) (dt : F) :
  (decode (propagate b dt)).1 = (decode b).1.
Proof. unfold decode, propagate, enumerate. simpl. apply decode_loop_propagate. Qed.

Lemma decode_propagate_all (dts : list F) : forall b : GravitationalBit F,
  (decode (propagate_all b dts)).1 = (decode b).1.
Proof.
  unfold propagate_all.
  induction dts as [|dt dts IH]; intros b; cbn [fold_left]; [reflexivity|].
  rewrite IH. apply decode_propagate.
Qed.

Lemma verify_integrity_decode (b : GravitationalBit F) (original : Z) :
  (verify_integrity b original).1 = ((decode b).1 =? original).
Proof. reflexivity. Qed.

End BitFacts.

(** ** The state bank *)

Lemma range_length (a b : Z) : length (range a b) = Z.to_nat (b - a).
Proof. unfold range. rewrite length_map, length_seq. reflexivity. Qed.

Lemma range_empty (a b : Z) : b <= a -> range a b = [].
Proof. intros Hle. unfold range. replace (Z.to_nat (b - a)) with O by lia. reflexivity. Qed.

Lemma range_snoc (a b : Z) : a <= b -> range a (b + 1) = range a b ++ [b].
Proof.
  intros Hle. unfold range.
  replace (Z.to_nat (b + 1 - a)) with (S (Z.to_nat (b - a))) by lia.
  rewrite seq_S, map_app. cbn [map]. do 2 f_equal. lia.
Qed.

Section BankFacts.
Context {F : Type} `{PyFloat F}.

(** The two inner loops make [n * n] slots for the shell [n]. *)
Lemma shell_length (mk : Z -> Z -> OrbitalState F) (n : Z) :
  0 <= n ->
  Z.of_nat (length (flat_map (fun l => map (mk l) (range (- l) (l + 1))) (range 0 n)))
  = n * n.
Proof.
  revert n. apply natlike_ind.
  - reflexivity.
  - intros n Hn IH. unfold Z.succ.
    rewrite range_snoc, flat_map_app, length_app by lia.
    cbn [flat_map]. rewrite app_nil_r, length_map, range_length.
    rewrite Nat2Z.inj_add, IH. lia.
Qed.

Lemma slot_count_six (L : Z) :
  0 <= L -> 6 * slot_count (F:=F) L = L * (L + 1) * (2 * L + 1).
Proof.
  unfold slot_count, orbital_states. revert L. apply natlike_ind.
  - reflexivity.
  - intros L HL IH. unfold Z.succ.
    rewrite range_snoc, flat_map_app, length_app by lia.
    cbn [flat_map]. rewrite app_nil_r.
    rewrite Nat2Z.inj_add, Z.mul_add_distr_l, IH.
    rewrite (shell_length
               (fun l m => mkOrbitalState (L + 1) l m 0
                             (fdiv f_neg_13_6 (f_of_Z ((L + 1) * (L + 1)))) (f_of_Z 0)))
      by lia.
    lia.
Qed.

Lemma slot_count_formula (L : Z) :
  0 <= L -> slot_count (F:=F) L = L * (L + 1) * (2 * L + 1) / 6.
Proof.
  intros HL. rewrite <- slot_count_six by assumption.
  rewrite Z.mul_comm, Z.div_mul by lia. reflexivity.
Qed.

Lemma orbital_states_nonpositive (L : Z) : L <= 0 -> orbital_states (F:=F) L = [].
Proof. intros HL. unfold orbital_states. rewrite range_empty by lia. reflexivity. Qed.

End BankFacts.

Section BitClaims.
Context {F G : Type} `{PyFloat F} `{PyRandom F G}.

(** C1: for every non-negative [v] and every level [L > 0], [encode v]
    on a freshly constructed unit followed by [decode] returns
    [v mod 2 ^ slot_count L]: the value is truncated to the low
    [slot_count L] bits and never rejected. *)
Theorem encode_decode_truncates (L v : Z) (g : G) :
  0 <= v -> 0 < L ->
  exists u, GravitationalBit_init L = Returned u /\
            (decode (encode u v g).1).1 = v mod 2 ^ slot_count L.
Proof.
  intros _ _. eexists. split; [reflexivity|].
  rewrite decode_encode. reflexivity.
Qed.

(** C2: [propagate] never changes what [decode] returns, whatever the
    slots hold, for every list of time steps; hence after
    [encode original] with [0 <= original < 2 ^ slot_count L],
    [verify_integrity original] is true after any run of [propagate]
    calls. *)
Theorem propagate_keeps_decode (b : GravitationalBit F) (dts : list F)
    (L original : Z) (g : G) :
  0 <= original < 2 ^ slot_count L ->
  (decode (propagate_all b dts)).1 = (decode b).1 /\
  exists u, GravitationalBit_init L = Returned u /\
            (verify_integrity (propagate_all (encode u original g).1 dts) original).1
            = true.
Proof.
  intros Hrange. split; [apply decode_propagate_all|].
  eexists. split; [reflexivity|].
  rewrite verify_integrity_decode, decode_propagate_all, decode_encode.
  apply Z.eqb_eq. apply Z.mod_small. exact Hrange.
Qed.

(** C5, as the code has it: a level [L <= 0] is not rejected; the
    constructor returns a unit with no slot at all, on which every
    encoded value decodes to [0]. *)
Theorem nonpositive_level_gives_empty_unit (L : Z) :
  L <= 0 ->
  GravitationalBit_init L = Returned (mkGravitationalBit L (f_of_Z 1) [] 0) /\
  forall (u : GravitationalBit F) (v : Z) (g : G),
    GravitationalBit_init L = Returned u ->
    (decode (encode u v g).1).1 = 0.
Proof.
  intros HL. unfold GravitationalBit_init.
  rewrite orbital_states_nonpositive by assumption.
  split; [reflexivity|].
  intros u v g Hu. injection Hu as <-. reflexivity.
Qed.

(** C8: for every level [L > 0] the constructor generates
    [L * (L + 1) * (2 * L + 1) / 6] slots; at the default level 15
    that is 1240, the number [init] reports, and it is also what the
    [states_per_bit] formula of [get_stats] gives for the booster
    [init] creates. *)
Theorem slot_count_sum_of_squares (L : Z) (api_url api_key model_name : string) :
  0 < L ->
  (exists u : GravitationalBit F,
      GravitationalBit_init L = Returned u /\
      len_states u = L * (L + 1) * (2 * L + 1) / 6) /\
  slot_count (F:=F) 15 = 1240 /\
  let '(result, booster) := init (F:=F) api_url api_key model_name in
  compression_level (memory booster) = 15 /\
  compression_states result = slot_count (F:=F) (compression_level (memory booster)) /\
  states_per_bit (get_stats booster)
  = slot_count (F:=F) (compression_level (memory booster)).
Proof.
  intros HL.
  assert (H15 : slot_count (F:=F) 15 = 1240)
    by (rewrite slot_count_formula by lia; reflexivity).
  split; [|split; [exact H15|]].
  - eexists. split; [reflexivity|].
    apply (slot_count_formula L). lia.
  - cbn. rewrite H15. repeat split; reflexivity.
Qed.

End BitClaims.

Import Concrete.

Lemma encode_decode_truncates_witness :
  0 <= 1000 /\ 0 < 2 /\
  exists u, GravitationalBit_init (F:=Q) 2 = Returned u /\
            (decode (encode u 1000 42).1).1 = 1000 mod 2 ^ slot_count (F:=Q) 2.
Proof.
  split; [lia|]. split; [lia|].
  apply (encode_decode_truncates 2 1000 42); lia.
Defined.

Lemma propagate_keeps_decode_witness :
  0 <= 19 < 2 ^ slot_count (F:=Q) 2 /\
  (let b := mkGravitationalBit 1 1%Q
              [mkOrbitalState 1 0 0 1 (-136 # 10)%Q (1 # 2)%Q] 0 in
   (decode (propagate_all b [(1 # 100)%Q; (3 # 1)%Q])).1 = (decode b).1) /\
  exists u, GravitationalBit_init (F:=Q) 2 = Returned u /\
            (verify_integrity
               (propagate_all (encode u 19 42).1 [(1 # 100)%Q; (3 # 1)%Q]) 19).1
            = true.
Proof.
  assert (Hr : 0 <= 19 < 2 ^ slot_count (F:=Q) 2) by (vm_compute; split; congruence).
  split; [exact Hr|].
  apply (propagate_keeps_decode
           (mkGravitationalBit 1 1%Q [mkOrbitalState 1 0 0 1 (-136 # 10)%Q (1 # 2)%Q] 0)
           [(1 # 100)%Q; (3 # 1)%Q] 2 19 42 Hr).
Defined.

(** C5 as stated fails: level 0 is accepted and yields a unit. *)
Lemma level_zero_is_accepted :
  GravitationalBit_init (F:=Q) 0 = Returned (mkGravitationalBit 0 1%Q [] 0) /\
  GravitationalBit_init (F:=Q) 0 <> Raised InvalidConfiguration.
Proof. split; [reflexivity | discriminate]. Qed.

Lemma nonpositive_level_gives_empty_unit_witness :
  -3 <= 0 /\
  GravitationalBit_init (F:=Q) (-3) = Returned (mkGravitationalBit (-3) (f_of_Z 1) [] 0) /\
  forall (u : GravitationalBit Q) (v : Z) (g : Z),
    GravitationalBit_init (-3) = Returned u ->
    (decode (encode u v g).1).1 = 0.
Proof.
  split; [lia|].
  apply (nonpositive_level_gives_empty_unit (G:=Z) (-3)). lia.
Defined.

Lemma slot_count_sum_of_squares_witness :
  0 < 3 /\
  (exists u : GravitationalBit Q,
      GravitationalBit_init 3 = Returned u /\
      len_states u = 3 * (3 + 1) * (2 * 3 + 1) / 6) /\
  slot_count (F:=Q) 15 = 1240 /\
  let '(result, booster) := init (F:=Q) "http://localhost:11434/api/chat" "" "test-model" in
  compression_level (memory booster) = 15 /\
  compression_states result = slot_count (F:=Q) (compression_level (memory booster)) /\
  states_per_bit (get_stats booster)
  = slot_count (F:=Q) (compression_level (memory booster)).
Proof.
  split; [lia|].
  apply (slot_count_sum_of_squares (F:=Q) 3
           "http://localhost:11434/api/chat" "" "test-model").
  lia.
Defined.

(** ** The two tokenizers *)

Lemma is_space_lower_char (c : ascii) : is_space (lower_char c) = is_space c.
Proof. destruct c as [[] [] [] [] [] [] [] []]; reflexivity. Qed.

Lemma lower_snoc (s : string) (c : ascii) :
  lower (s +:+ String c EmptyString) = lower s +:+ String (lower_char c) EmptyString.
Proof. induction s as [|a s IH]; simpl; [reflexivity | rewrite IH; reflexivity]. Qed.

Lemma lower_eqb_empty (s : string) :
  String.eqb (lower s) EmptyString = String.eqb s EmptyString.
Proof. destruct s; reflexivity. Qed.

Lemma len_lower (s : string) : len (lower s) = len s.
Proof.
  unfold len. f_equal.
  induction s as [|a s IH]; simpl; [reflexivity | rewrite IH; reflexivity].
Qed.

(** Lowercasing commutes with splitting on whitespace. *)
Lemma split_from_lower (s : string) : forall cur,
  split_from (lower cur) (lower s) = map lower (split_from cur s).
Proof.
  induction s as [|c s IH]; intros cur; simpl.
  - rewrite lower_eqb_empty. destruct (String.eqb cur EmptyString); reflexivity.
  - rewrite is_space_lower_char, lower_eqb_empty.
    destruct (is_space c).
    + destruct (String.eqb cur EmptyString); simpl; rewrite <- (IH EmptyString); reflexivity.
    + rewrite <- lower_snoc. apply IH.
Qed.

Lemma split_lower (s : string) : split (lower s) = map lower (split s).
Proof. apply (split_from_lower s EmptyString). Qed.




Lemma filter_map_filter {A B} (P : B -> Prop) `{forall y, Decision (P y)}
    (Q : A -> Prop) `{forall x, Decision (Q x)} (f : A -> B) (xs : list A) :
  (forall x, P (f x) -> Q x) ->
  filter P (map f (filter Q xs)) = filter P (map f xs).
Proof.
  intros Himp. induction xs as [|x xs IH]; [reflexivity|].
  rewrite (filter_cons Q). cbn [map].
  destruct (decide (Q x)) as [Hq|Hq].
  - cbn [map]. rewrite !(filter_cons P), IH. reflexivity.
  - rewrite IH, (filter_cons P).
    destruct (decide (P (f x))) as [Hp|Hp]; [|reflexivity].
    exfalso. apply Hq, Himp, Hp.
Qed.

(** The keyword loop of [store_chunk] files the chunk under exactly the
    words [index_words] lists, in that order. *)
Lemma index_loop_index_words (chunk_id : string) (words : list string) :
  forall idx : gmap string (list string),
    fold_left (index_word chunk_id) words idx
    = fold_left (fun idx w => <[w := default [] (idx !! w) ++ [chunk_id]]> idx)
        (filter (fun w => 3 < len w) (map (strip punctuation) words)) idx.
Proof.
  induction words as [|w words IH]; intros idx; [reflexivity|].
  cbn [map fold_left]. rewrite filter_cons. unfold index_word at 2.
  destruct (decide (3 < len (strip punctuation w))) as [Hlt|Hge].
  - replace (3 <? len (strip punctuation w)) with true by lia.
    cbn [fold_left]. apply IH.
  - replace (3 <? len (strip punctuation w)) with false by lia.
    apply IH.
Qed.




(** ** Sorting and scoring *)

Section SortFacts.
Context {A : Type} (key : A -> Z).

Lemma insert_desc_perm (x : A) (xs : list A) : insert_desc key x xs ≡ₚ x :: xs.
Proof.
  induction xs as [|y xs IH]; simpl; [reflexivity|].
  destruct (key x <? key y); [|reflexivity].
  rewrite IH. apply perm_swap.
Qed.

Lemma sorted_reverse_perm (xs : list A) : sorted_reverse key xs ≡ₚ xs.
Proof.
  induction xs as [|x xs IH]; simpl; [reflexivity|].
  rewrite insert_desc_perm, IH. reflexivity.
Qed.

Local Abbreviation desc := (descending key).

Lemma insert_desc_hd (a x : A) (xs : list A) :
  desc a x -> HdRel desc a xs -> HdRel desc a (insert_desc key x xs).
Proof.
  intros Hax Hhd. destruct xs as [|y xs]; simpl.
  - constructor. exact Hax.
  - destruct (key x <? key y); constructor; [|exact Hax].
    inversion Hhd; assumption.
Qed.

Lemma insert_desc_sorted (x : A) (xs : list A) :
  Sorted desc xs -> Sorted desc (insert_desc key x xs).
Proof.
  induction xs as [|y xs IH]; intros Hs; simpl.
  - repeat constructor.
  - inversion Hs as [|? ? Hs' Hhd]; subst.
    destruct (Z.ltb_spec (key x) (key y)) as [Hlt|Hge].
    + constructor; [apply IH; exact Hs'|].
      apply insert_desc_hd; [unfold descending; lia | exact Hhd].
    + constructor; [exact Hs|]. constructor. unfold descending. lia.
Qed.

Lemma sorted_reverse_sorted (xs : list A) : Sorted desc (sorted_reverse key xs).
Proof.
  induction xs as [|x xs IH]; simpl; [constructor|].
  apply insert_desc_sorted, IH.
Qed.

(** Elements of one key keep their relative order. *)
Lemma insert_desc_stable (k : Z) (x : A) (xs : list A) :
  filter (fun y => key y = k) (insert_desc key x xs)
  = filter (fun y => key y = k) (x :: xs).
Proof.
  induction xs as [|y xs IH]; simpl; [reflexivity|].
  destruct (Z.ltb_spec (key x) (key y)) as [Hlt|Hge]; [|reflexivity].
  rewrite (filter_cons _ y), IH, !(filter_cons _ x), (filter_cons _ y).
  destruct (decide (key y = k)), (decide (key x = k)); try reflexivity; lia.
Qed.

Lemma sorted_reverse_stable (k : Z) (xs : list A) :
  filter (fun y => key y = k) (sorted_reverse key xs)
  = filter (fun y => key y = k) xs.
Proof.
  induction xs as [|x xs IH]; simpl; [reflexivity|].
  rewrite insert_desc_stable, !(filter_cons _ x), IH. reflexivity.
Qed.

End SortFacts.

Lemma dict_keys_set {V} (d : dict V) (k : string) (v : V) :
  dict_keys (dict_set d k v)
  = if decide (k ∈ dict_keys d) then dict_keys d else dict_keys d ++ [k].
Proof.
  unfold dict_keys. induction d as [|[k' v'] d IH]; simpl.
  - destruct (decide (k ∈ [])) as [Hin|_]; [inversion Hin | reflexivity].
  - destruct (String.eqb_spec k' k) as [->|Hne]; simpl.
    + rewrite decide_True by left. reflexivity.
    + rewrite IH. destruct (decide (k ∈ map fst d)) as [Hin|Hnin].
      * rewrite decide_True by (right; exact Hin). reflexivity.
      * rewrite decide_False; [reflexivity|].
        intros Hin. apply elem_of_cons in Hin as [->|Hin]; [apply Hne | apply Hnin]; auto.
Qed.

Lemma dict_get_set {V} (d : dict V) (k k' : string) (v : V) :
  dict_get (dict_set d k v) k' = if decide (k = k') then Some v else dict_get d k'.
Proof.
  induction d as [|[k0 v0] d IH]; simpl.
  - destruct (String.eqb_spec k k'), (decide (k = k')); congruence.
  - destruct (String.eqb_spec k0 k) as [->|Hne]; simpl.
    + destruct (String.eqb_spec k k'), (decide (k = k')); congruence.
    + destruct (String.eqb_spec k0 k') as [->|Hne'].
      * rewrite decide_False by congruence. reflexivity.
      * apply IH.
Qed.

Lemma dict_get_None {V} (d : dict V) (k : string) :
  k ∉ dict_keys d -> dict_get d k = None.
Proof.
  unfold dict_keys. induction d as [|[k' v'] d IH]; simpl; intros Hnin; [reflexivity|].
  destruct (String.eqb_spec k' k) as [->|Hne].
  - exfalso. apply Hnin. left.
  - apply IH. intros Hin. apply Hnin. right. exact Hin.
Qed.

Lemma score_of_bump (scores : dict Z) (x c : string) :
  score_of (bump scores x) c = score_of scores c + (if decide (x = c) then 1 else 0).
Proof.
  unfold score_of, bump. rewrite dict_get_set.
  destruct (decide (x = c)) as [->|Hne]; simpl; lia.
Qed.

Lemma occurrences_cons (c x : string) (ids : list string) :
  occurrences c (x :: ids) = (if decide (x = c) then 1 else 0) + occurrences c ids.
Proof.
  unfold occurrences. rewrite filter_cons.
  destruct (decide (x = c)); cbn [length]; lia.
Qed.

(** Every visit adds one to the visited chunk's score. *)
Lemma score_of_fold_bump (c : string) (ids : list string) : forall scores,
  score_of (fold_left bump ids scores) c = score_of scores c + occurrences c ids.
Proof.
  induction ids as [|x ids IH]; intros scores; cbn [fold_left].
  - unfold occurrences. simpl. lia.
  - rewrite IH, score_of_bump, occurrences_cons. lia.
Qed.

Lemma dict_keys_bump (scores : dict Z) (x : string) :
  dict_keys (bump scores x)
  = if decide (x ∈ dict_keys scores) then dict_keys scores else dict_keys scores ++ [x].
Proof. unfold bump. apply dict_keys_set. Qed.

(** Appending an id that is not yet a key, then the later new ids, is
    appending the new ids of the longer list. *)
Lemma first_occurrences_step (keys : list string) (x : string) (ids : list string) :
  let keys' := if decide (x ∈ keys) then keys else keys ++ [x] in
  keys' ++ filter (fun y => y ∉ keys') (first_occurrences ids)
  = keys ++ filter (fun y => y ∉ keys) (first_occurrences (x :: ids)).
Proof.
  cbn [first_occurrences]. rewrite filter_cons.
  destruct (decide (x ∈ keys)) as [Hin|Hnin].
  - rewrite decide_False by (intros Hn; apply Hn, Hin).
    f_equal. rewrite list_filter_filter. apply list_filter_iff.
    intros y. split; [|tauto].
    intros Hy. split; [exact Hy|]. intros ->. apply Hy, Hin.
  - rewrite decide_True by exact Hnin.
    rewrite <- app_assoc. cbn [app]. do 2 f_equal.
    rewrite list_filter_filter. apply list_filter_iff.
    intros y. rewrite elem_of_app, list_elem_of_singleton. tauto.
Qed.

(** New keys enter the score dictionary at the end, in the order the
    chunks are first visited. *)
Lemma dict_keys_fold_bump (ids : list string) : forall scores,
  dict_keys (fold_left bump ids scores)
  = dict_keys scores ++ filter (fun y => y ∉ dict_keys scores) (first_occurrences ids).
Proof.
  induction ids as [|x ids IH]; intros scores; cbn [fold_left].
  - cbn [first_occurrences]. rewrite filter_nil, app_nil_r. reflexivity.
  - rewrite (IH (bump scores x)), dict_keys_bump. apply first_occurrences_step.
Qed.

Lemma score_chunks_hits (idx : gmap string (list string)) (words : list string) :
  forall scores,
    fold_left (score_word idx) words scores = fold_left bump (hits idx words) scores.
Proof.
  induction words as [|w words IH]; intros scores; [reflexivity|].
  cbn [fold_left hits flat_map]. rewrite fold_left_app, IH.
  unfold score_word. destruct (idx !! w); reflexivity.
Qed.

Lemma filter_all {A} (P : A -> Prop) `{forall x, Decision (P x)} (xs : list A) :
  (forall x, P x) -> filter P xs = xs.
Proof.
  intros Hall. induction xs as [|x xs IH]; [reflexivity|].
  rewrite filter_cons, decide_True, IH by apply Hall. reflexivity.
Qed.

Lemma score_chunks_keys (idx : gmap string (list string)) (words : list string) :
  dict_keys (score_chunks idx words) = first_occurrences (hits idx words).
Proof.
  unfold score_chunks. rewrite score_chunks_hits, dict_keys_fold_bump.
  cbn [dict_keys map app]. apply filter_all.
  intros y Hin. inversion Hin.
Qed.

Lemma score_chunks_score (idx : gmap string (list string)) (words : list string)
    (c : string) :
  score_of (score_chunks idx words) c = occurrences c (hits idx words).
Proof.
  unfold score_chunks. rewrite score_chunks_hits, score_of_fold_bump. reflexivity.
Qed.

(** ** Retrieval *)

Section RetrievalClaims.
Context {F : Type}.

Lemma descending_transitive (key : string -> Z) : Transitive (descending key).
Proof. intros x y z Hxy Hyz. unfold descending in *. lia. Qed.

(** C4, as the code has it: when the query hits the index, the chunks
    are ranked by decreasing score, the score of a chunk being the
    number of times the scoring loops visit it; chunks of equal score
    stand in the order in which they are first visited, query words
    taken in query order and each word's index list front to back. *)
Theorem ranking_ties_follow_first_visit (self : GravitationalMemory F)
    (query : string) (top_k : Z) :
  let scores := score_chunks (index self) (query_words query) in
  let visits := hits (index self) (query_words query) in
  visits <> [] ->
  top_chunks self query top_k = slice_to top_k (ranked scores) /\
  (forall c, score_of scores c = occurrences c visits) /\
  ranked scores ≡ₚ first_occurrences visits /\
  StronglySorted (descending (score_of scores)) (ranked scores) /\
  forall k, filter (fun c => score_of scores c = k) (ranked scores)
            = filter (fun c => score_of scores c = k) (first_occurrences visits).
Proof.
  intros scores visits Hhit.
  assert (Hkeys : dict_keys scores = first_occurrences visits)
    by apply score_chunks_keys.
  split; [|split; [|split; [|split]]].
  - unfold top_chunks. fold scores.
    destruct scores as [|entry rest] eqn:E; [|reflexivity].
    exfalso. apply Hhit.
    destruct visits as [|x r]; [reflexivity|]. discriminate Hkeys.
  - intros c. apply score_chunks_score.
  - unfold ranked. rewrite sorted_reverse_perm, Hkeys. reflexivity.
  - unfold ranked. apply Sorted_StronglySorted.
    + apply descending_transitive.
    + apply sorted_reverse_sorted.
  - intros k. unfold ranked. rewrite sorted_reverse_stable, Hkeys. reflexivity.
Qed.

End RetrievalClaims.

(** C4 as stated fails: chunk [a] is stored before chunk [b], both
    score 1 on the query ["bravo alpha"], and [b] is ranked first. *)
Lemma tie_order_is_not_store_order :
  two_chunks = Returned two_chunks_memory /\
  dict_keys (storage two_chunks_memory) = ["a"; "b"] /\
  score_chunks (index two_chunks_memory) (query_words "bravo alpha") = [("b", 1); ("a", 1)] /\
  top_chunks two_chunks_memory "bravo alpha" 8 = ["b"; "a"] /\
  retrieve_relevant_context two_chunks_memory "bravo alpha" 8
  = "bravo" +:+ nl +:+ nl +:+ "alpha".
Proof. repeat split; vm_compute; reflexivity. Qed.

Lemma ranking_ties_follow_first_visit_witness :
  let self := two_chunks_memory in
  let scores := score_chunks (index self) (query_words "bravo alpha") in
  let visits := hits (index self) (query_words "bravo alpha") in
  visits <> [] /\
  top_chunks self "bravo alpha" 8 = slice_to 8 (ranked scores) /\
  (forall c, score_of scores c = occurrences c visits) /\
  ranked scores ≡ₚ first_occurrences visits /\
  StronglySorted (descending (score_of scores)) (ranked scores) /\
  forall k, filter (fun c => score_of scores c = k) (ranked scores)
            = filter (fun c => score_of scores c = k) (first_occurrences visits).
Proof.
  assert (Hhit : hits (index two_chunks_memory) (query_words "bravo alpha") <> [])
    by (intros E; vm_compute in E; discriminate E).
  split; [exact Hhit|].
  apply (ranking_ties_follow_first_visit two_chunks_memory "bravo alpha" 8 Hhit).
Defined.

(** ** The fragment store *)

Lemma bind_returned {A B} (a : A) (k : A -> outcome B) : (Returned a ≫= k) = k a.
Proof. reflexivity. Qed.

Lemma int16_from_returns (s : string) : forall acc,
  forallb (fun c => match hex_digit c with Some _ => true | None => false end)
          (list_ascii_of_string s) = true ->
  exists z, int16_from acc s = Returned z.
Proof.
  induction s as [|c s IH]; intros acc Hok; simpl in *.
  - eexists. reflexivity.
  - apply andb_true_iff in Hok as [Hc Hs].
    destruct (hex_digit c) as [d|]; [|discriminate Hc].
    apply IH, Hs.
Qed.

Lemma int16_hexdigest (s : string) :
  is_hexdigest s = true -> exists z, int16 s = Returned z.
Proof.
  unfold is_hexdigest. intros Hs. apply andb_true_iff in Hs as [Hlen Hok].
  destruct s as [|c s]; [discriminate Hlen|].
  apply (int16_from_returns (String c s) 0 Hok).
Qed.

Lemma elem_of_first_occurrences (ids : list string) (y : string) :
  y ∈ first_occurrences ids <-> y ∈ ids.
Proof.
  induction ids as [|x ids IH]; cbn [first_occurrences]; [reflexivity|].
  rewrite !elem_of_cons, list_elem_of_filter, IH.
  destruct (decide (y = x)); tauto.
Qed.

Lemma NoDup_first_occurrences (ids : list string) : NoDup (first_occurrences ids).
Proof.
  induction ids as [|x ids IH]; cbn [first_occurrences]; constructor.
  - rewrite list_elem_of_filter. tauto.
  - apply NoDup_filter, IH.
Qed.

Lemma length_first_occurrences (ids : list string) :
  (length (first_occurrences ids) <= length ids)%nat.
Proof.
  induction ids as [|x ids IH]; cbn [first_occurrences length]; [lia|].
  pose proof (length_filter (fun y => y <> x) (first_occurrences ids)). lia.
Qed.

(** A repeated id makes the list of distinct ids strictly shorter. *)
Lemma length_first_occurrences_lt (ids : list string) :
  ~ NoDup ids -> (length (first_occurrences ids) < length ids)%nat.
Proof.
  induction ids as [|x ids IH]; intros Hdup.
  - exfalso. apply Hdup. constructor.
  - cbn [first_occurrences length].
    pose proof (length_first_occurrences ids) as Hle.
    destruct (decide (x ∈ ids)) as [Hin|Hnin].
    + assert (Hlt : (length (filter (fun y => y <> x) (first_occurrences ids))
                     < length (first_occurrences ids))%nat).
      { apply (length_filter_lt _ _ x); [apply elem_of_first_occurrences, Hin | tauto]. }
      lia.
    + assert (Hdup' : ~ NoDup ids)
        by (intros Hnd; apply Hdup; constructor; assumption).
      pose proof (IH Hdup').
      pose proof (length_filter (fun y => y <> x) (first_occurrences ids)). lia.
Qed.

Section StoreFacts.
Context {F G : Type} `{PyFloat F} `{PyRandom F G} `{PyHashlib}.

(** What one [store_chunk] call does to the memory. *)
Lemma store_chunk_spec (self : GravitationalMemory F) (g : G) (chunk_id txt : string) :
  exists summary self' g',
    store_chunk self g chunk_id txt = Returned (summary, self', g') /\
    compression_level self' = compression_level self /\
    total_chunks (stats self') = total_chunks (stats self) + 1 /\
    total_bits (stats self') = total_bits (stats self) + 1 /\
    indexed_keywords (stats self') = Z.of_nat (size (index self')) /\
    dict_keys (storage self')
    = (if decide (chunk_id ∈ dict_keys (storage self))
       then dict_keys (storage self)
       else dict_keys (storage self) ++ [chunk_id]) /\
    (forall other, text <$> dict_get (storage self') other
                   = if decide (chunk_id = other) then Some txt
                     else text <$> dict_get (storage self) other) /\
    summary_integrity summary = true.
Proof.
  unfold store_chunk, GravitationalBit_init. rewrite bind_returned.
  destruct (int16_hexdigest _ (md5_hexdigest_shape txt)) as [z Hz].
  rewrite Hz, bind_returned.
  destruct (encode _ _ g) as [bit1 g1] eqn:E.
  cbn [decode verify_integrity].
  do 3 eexists. split; [reflexivity|].
  cbn [compression_level stats storage index total_chunks total_bits
       indexed_keywords summary_integrity].
  repeat split.
  - apply dict_keys_set.
  - intros other. rewrite dict_get_set.
    destruct (decide (chunk_id = other)); reflexivity.
  - apply Z.eqb_eq.
    apply (decode_propagate
             (mkGravitationalBit (n_max bit1) (nucleus_field bit1) (states bit1)
                (operation_count bit1 + 1)) f_0_01).
Qed.

(** Ids that a run of calls does not store keep their text. *)
Lemma store_chunks_untouched (calls : list (string * string)) :
  forall (self m : GravitationalMemory F) (g g' : G) (other : string),
    store_chunks self g calls = Returned (m, g') ->
    other ∉ map fst calls ->
    text <$> dict_get (storage m) other = text <$> dict_get (storage self) other.
Proof.
  induction calls as [|[chunk_id txt] calls IH]; intros self m g g' other Hrun Hnin.
  - cbn in Hrun. injection Hrun as <- <-. reflexivity.
  - destruct (store_chunk_spec self g chunk_id txt)
      as (summary & self1 & g1 & Hcall & _ & _ & _ & _ & _ & Htext & _).
    cbn [store_chunks] in Hrun. rewrite Hcall, bind_returned in Hrun.
    cbn [map fst] in Hnin. apply not_elem_of_cons in Hnin as [Hne Hnin].
    rewrite (IH self1 m g1 g' other Hrun Hnin), Htext.
    rewrite decide_False by congruence. reflexivity.
Qed.

(** Counters, keys and texts after a run of calls, from any memory. *)
Lemma store_chunks_spec (calls : list (string * string)) :
  forall (self : GravitationalMemory F) (g : G),
  exists m g',
    store_chunks self g calls = Returned (m, g') /\
    compression_level m = compression_level self /\
    total_chunks (stats m) = total_chunks (stats self) + Z.of_nat (length calls) /\
    total_bits (stats m) = total_bits (stats self) + Z.of_nat (length calls) /\
    dict_keys (storage m)
    = dict_keys (storage self)
      ++ filter (fun y => y ∉ dict_keys (storage self))
           (first_occurrences (map fst calls)) /\
    forall before chunk_id txt after,
      calls = before ++ (chunk_id, txt) :: after ->
      chunk_id ∉ map fst after ->
      text <$> dict_get (storage m) chunk_id = Some txt.
Proof.
  induction calls as [|[chunk_id txt] calls IH]; intros self g.
  - exists self, g. cbn [store_chunks length map first_occurrences].
    rewrite filter_nil, app_nil_r, !Z.add_0_r.
    repeat split. intros [|? ?] ? ? ? E; discriminate E.
  - destruct (store_chunk_spec self g chunk_id txt)
      as (summary & self1 & g1 & Hrun & Hlevel & Hchunks & Hbits & _ & Hkeys & Htext & _).
    destruct (IH self1 g1)
      as (m & g' & Hrest & Hlevel' & Hchunks' & Hbits' & Hkeys' & Htext').
    exists m, g'. cbn [store_chunks]. rewrite Hrun, bind_returned.
    split; [exact Hrest|].
    split; [congruence|].
    split; [rewrite Hchunks', Hchunks; cbn [length]; lia|].
    split; [rewrite Hbits', Hbits; cbn [length]; lia|].
    split.
    + rewrite Hkeys', Hkeys. apply first_occurrences_step.
    + intros before c t after Hsplit Hlast.
      destruct before as [|call before]; cbn [app] in Hsplit.
      * injection Hsplit as <- <- <-.
        rewrite (store_chunks_untouched calls self1 m g1 g' chunk_id Hrest Hlast).
        rewrite Htext, decide_True by reflexivity. reflexivity.
      * injection Hsplit as _ Hcalls. eapply Htext'; [exact Hcalls | exact Hlast].
Qed.

End StoreFacts.

Section StoreClaims.
Context {F G : Type} `{PyFloat F} `{PyRandom F G} `{PyHashlib}.

(** C9: after any run of [store_chunk] calls on a new memory,
    [total_chunks] and [total_bits] both equal the number of calls,
    while the fragment store has one key per distinct chunk id, in
    order of first use, each holding the text of the last call made
    under it; so a repeated id overwrites the fragment, still bumps
    both counters, and the chunk count then strictly exceeds the
    number of fragments held. *)
Theorem counters_count_calls (L : Z) (g : G) (calls : list (string * string)) :
  exists m g',
    store_chunks (GravitationalMemory_init (F:=F) L) g calls = Returned (m, g') /\
    total_chunks (stats m) = Z.of_nat (length calls) /\
    total_bits (stats m) = Z.of_nat (length calls) /\
    dict_keys (storage m) = first_occurrences (map fst calls) /\
    NoDup (dict_keys (storage m)) /\
    (forall chunk_id, chunk_id ∈ dict_keys (storage m) <-> chunk_id ∈ map fst calls) /\
    (forall before chunk_id txt after,
        calls = before ++ (chunk_id, txt) :: after ->
        chunk_id ∉ map fst after ->
        text <$> dict_get (storage m) chunk_id = Some txt) /\
    (~ NoDup (map fst calls) ->
     Z.of_nat (length (storage m)) < total_chunks (stats m)).
Proof.
  destruct (store_chunks_spec calls (GravitationalMemory_init L) g)
    as (m & g' & Hrun & _ & Hchunks & Hbits & Hkeys & Htext).
  cbn [GravitationalMemory_init stats storage total_chunks total_bits dict_keys map app]
    in Hchunks, Hbits, Hkeys.
  rewrite filter_all in Hkeys by (intros y Hin; inversion Hin).
  exists m, g'. split; [exact Hrun|].
  split; [lia|]. split; [lia|]. split; [exact Hkeys|].
  split; [rewrite Hkeys; apply NoDup_first_occurrences|].
  split; [intros c; rewrite Hkeys; apply elem_of_first_occurrences|].
  split; [exact Htext|].
  intros Hdup. apply length_first_occurrences_lt in Hdup.
  rewrite <- Hkeys in Hdup. unfold dict_keys in Hdup.
  rewrite !length_map in Hdup. lia.
Qed.

End StoreClaims.

Lemma counters_count_calls_witness :
  exists (m : GravitationalMemory Q) (g' : Z),
    store_chunks (GravitationalMemory_init 2) 1
      [("a", "alpha bravo"); ("b", "charlie"); ("a", "delta")] = Returned (m, g') /\
    total_chunks (stats m) = 3 /\
    total_bits (stats m) = 3 /\
    dict_keys (storage m) = ["a"; "b"] /\
    text <$> dict_get (storage m) "a" = Some "delta" /\
    Z.of_nat (length (storage m)) < total_chunks (stats m).
Proof.
  destruct (counters_count_calls (F:=Q) 2 1
              [("a", "alpha bravo"); ("b", "charlie"); ("a", "delta")])
    as (m & g' & Hrun & Hchunks & Hbits & Hkeys & _ & _ & Htext & Hlt).
  exists m, g'. split; [exact Hrun|].
  split; [exact Hchunks|]. split; [exact Hbits|]. split; [exact Hkeys|].
  split.
  - apply (Htext [("a", "alpha bravo"); ("b", "charlie")] "a" "delta" []);
      [reflexivity | intros Hin; inversion Hin].
  - apply Hlt. intros Hnd. inversion Hnd as [|? ? Hnin _]; subst.
    apply Hnin. right. left.
Defined.

(** ** Documents *)

(** A text with a word has at least one character. *)
Lemma len_of_split_nonempty (s : string) : split s <> [] -> 0 < len s.
Proof.
  destruct s as [|c s]; [intros Hs; exfalso; apply Hs; reflexivity|].
  intros _. unfold len. cbn [String.length]. lia.
Qed.

Lemma range_step_positive (a b step : Z) :
  0 < step ->
  exists starts, range_step a b step = Returned starts /\
                 length starts = Z.to_nat ((b - a + step - 1) / step).
Proof.
  intros Hstep. unfold range_step.
  replace (step =? 0) with false by lia. replace (0 <? step) with true by lia.
  eexists. split; [reflexivity|]. rewrite length_map, length_seq. reflexivity.
Qed.

Section DocumentFacts.
Context {F G : Type} `{PyFloat F} `{PyRandom F G} `{PyHashlib}.

(** The chunk loop is a run of [store_chunk] calls. *)
Lemma store_document_loop_calls (words : list string) (chunk_size : Z)
    (starts : list Z) :
  forall (self : GravitationalMemory F) (g : G) (chunks : list string),
    store_document_loop self g words chunk_size starts chunks
    = '(m, g') ← store_chunks self g (document_calls words chunk_size starts);
      mret (chunks ++ map fst (document_calls words chunk_size starts), m, g').
Proof.
  induction starts as [|i starts IH]; intros self g chunks.
  - cbn. rewrite app_nil_r. reflexivity.
  - cbn [store_document_loop document_calls map store_chunks].
    destruct (store_chunk_spec self g
                (substring 0 8 (md5_hexdigest (join " " (slice i (i + chunk_size) words))))
                (join " " (slice i (i + chunk_size) words)))
      as (summary & self1 & g1 & Hcall & _).
    rewrite Hcall, !bind_returned, IH.
    cbn [fst]. rewrite <- app_assoc. reflexivity.
Qed.

(** What one [store_document] call with a positive chunk size returns. *)
Lemma store_document_spec (self : GravitationalMemory F) (g : G)
    (txt : string) (chunk_size : Z) :
  0 < chunk_size ->
  exists d m g',
    store_document self g txt chunk_size = Returned (d, m, g') /\
    compression_level m = compression_level self /\
    total_bits (stats m)
    = total_bits (stats self)
      + Z.of_nat (Z.to_nat ((Z.of_nat (length (split txt)) + chunk_size - 1) / chunk_size)) /\
    doc_chunks d
    = Z.of_nat (Z.to_nat ((Z.of_nat (length (split txt)) + chunk_size - 1) / chunk_size)) /\
    doc_bits d = total_bits (stats m) /\
    doc_compression_ratio d
    = (if 0 <? total_bits (stats m) * compression_level m ^ 2
       then inject_Z (len txt) / inject_Z (total_bits (stats m) * compression_level m ^ 2)
       else 0)%Q.
Proof.
  intros Hsize. unfold store_document.
  destruct (range_step_positive 0 (Z.of_nat (length (split txt))) chunk_size Hsize)
    as (starts & Hstarts & Hlen).
  rewrite Hstarts, bind_returned, store_document_loop_calls.
  destruct (store_chunks_spec (document_calls (split txt) chunk_size starts) self g)
    as (m & g' & Hrun & Hlevel & _ & Hbits & _).
  rewrite Hrun, !bind_returned. cbn [mret outcome_ret].
  do 3 eexists. split; [reflexivity|].
  cbn [doc_chunks doc_bits doc_compression_ratio app].
  unfold document_calls in *. rewrite !length_map in *.
  rewrite Z.sub_0_r in Hlen. rewrite <- Hlen.
  repeat split; assumption.
Qed.

End DocumentFacts.

(** Exact quotients of integers with positive denominators. *)
Lemma Qdiv_lt_denominator (a d1 d2 : Z) :
  0 < a -> 0 < d1 -> d1 < d2 ->
  (inject_Z a / inject_Z d2 < inject_Z a / inject_Z d1)%Q.
Proof.
  intros Ha Hd1 Hd12.
  destruct d1 as [|p1|p1]; try lia. destruct d2 as [|p2|p2]; try lia.
  rewrite <- !Qmake_Qdiv. unfold Qlt. cbn [Qnum Qden]. nia.
Qed.

Lemma Qdiv_double_denominator (a d : Z) :
  0 < d -> (inject_Z a / inject_Z (2 * d) == inject_Z a / inject_Z d / 2)%Q.
Proof.
  intros Hd. destruct d as [|p|p]; try lia.
  change (2 * Z.pos p) with (Z.pos (2 * p)).
  rewrite <- !Qmake_Qdiv. unfold Qdiv, Qinv, Qmult, Qeq. cbn [Qnum Qden]. lia.
Qed.

Section DocumentClaims.
Context {F G : Type} `{PyFloat F} `{PyRandom F G} `{PyHashlib}.

(** C10, as the code has it: the denominator of the compression ratio
    is the memory-wide [total_bits] times the squared level.  For a
    text with at least one word, a positive chunk size, a non-zero
    level and a memory whose counter is not negative, a second
    [store_document] call with the same text adds the same number of
    chunks again and returns a strictly smaller exact ratio, and on a
    memory that held nothing before the first call the second ratio
    is half the first. *)
Theorem repeated_store_document_ratio (self : GravitationalMemory F) (g : G)
    (txt : string) (chunk_size : Z) :
  split txt <> [] -> 0 < chunk_size ->
  compression_level self <> 0 -> 0 <= total_bits (stats self) ->
  exists d1 m1 g1 d2 m2 g2,
    store_document self g txt chunk_size = Returned (d1, m1, g1) /\
    store_document m1 g1 txt chunk_size = Returned (d2, m2, g2) /\
    0 < doc_chunks d1 /\ doc_chunks d2 = doc_chunks d1 /\
    doc_bits d1 = total_bits (stats self) + doc_chunks d1 /\
    doc_bits d2 = total_bits (stats self) + 2 * doc_chunks d1 /\
    doc_compression_ratio d1
    = (inject_Z (len txt) / inject_Z (doc_bits d1 * compression_level self ^ 2))%Q /\
    doc_compression_ratio d2
    = (inject_Z (len txt) / inject_Z (doc_bits d2 * compression_level self ^ 2))%Q /\
    (doc_compression_ratio d2 < doc_compression_ratio d1)%Q /\
    (total_bits (stats self) = 0 ->
     (doc_compression_ratio d2 == doc_compression_ratio d1 / 2)%Q).
Proof.
  intros Hword Hsize Hlevel Hbits.
  destruct (store_document_spec self g txt chunk_size Hsize)
    as (d1 & m1 & g1 & Hrun1 & Hlevel1 & Hbits1 & Hchunks1 & Hdoc1 & Hratio1).
  destruct (store_document_spec m1 g1 txt chunk_size Hsize)
    as (d2 & m2 & g2 & Hrun2 & Hlevel2 & Hbits2 & Hchunks2 & Hdoc2 & Hratio2).
  exists d1, m1, g1, d2, m2, g2.
  set (k := Z.of_nat (Z.to_nat ((Z.of_nat (length (split txt)) + chunk_size - 1)
                                 / chunk_size))) in *.
  assert (Hk : 0 < k).
  { assert (1 <= (Z.of_nat (length (split txt)) + chunk_size - 1) / chunk_size).
    { apply Z.div_le_lower_bound; [lia|].
      destruct (split txt); [contradiction | cbn [length]; lia]. }
    unfold k. lia. }
  pose proof (len_of_split_nonempty txt Hword) as Hlen.
  assert (Hsq : 0 < compression_level self ^ 2) by nia.
  rewrite Hlevel2, Hlevel1 in Hratio2. rewrite Hlevel1 in Hratio1.
  rewrite <- Hdoc1 in Hratio1. rewrite <- Hdoc2 in Hratio2.
  assert (Hd1 : doc_bits d1 = total_bits (stats self) + k) by lia.
  assert (Hd2 : doc_bits d2 = total_bits (stats self) + 2 * k) by lia.
  assert (Hpos1 : 0 < doc_bits d1 * compression_level self ^ 2) by nia.
  assert (Hpos2 : 0 < doc_bits d2 * compression_level self ^ 2) by nia.
  replace (0 <? doc_bits d1 * compression_level self ^ 2) with true in Hratio1 by lia.
  replace (0 <? doc_bits d2 * compression_level self ^ 2) with true in Hratio2 by lia.
  split; [exact Hrun1|]. split; [exact Hrun2|].
  split; [lia|]. split; [lia|]. split; [lia|]. split; [lia|].
  split; [exact Hratio1|]. split; [exact Hratio2|].
  rewrite Hratio1, Hratio2. split.
  - apply Qdiv_lt_denominator; [lia | lia | nia].
  - intros Hzero.
    replace (doc_bits d2 * compression_level self ^ 2)
      with (2 * (doc_bits d1 * compression_level self ^ 2)) by lia.
    apply Qdiv_double_denominator. lia.
Qed.

End DocumentClaims.

(** C10 as stated fails: a text of one blank is not empty, adds no
    chunk, and both calls return the ratio 0. *)
Lemma blank_text_ratio_does_not_decrease :
  " " <> EmptyString /\
  exists r1 r2 : Q,
    ('(d1, m1, g1) ← store_document (GravitationalMemory_init (F:=Q) 15) 1 " " 200;
     '(d2, _, _) ← store_document m1 g1 " " 200;
     mret (doc_compression_ratio d1, doc_compression_ratio d2)) = Returned (r1, r2) /\
    ~ (r2 < r1)%Q.
Proof.
  split; [discriminate|].
  exists 0%Q, 0%Q. split; [reflexivity|].
  intros Hlt. apply (Qlt_irrefl 0 Hlt).
Qed.

Lemma repeated_store_document_ratio_witness :
  split "alpha bravo charlie delta echo" <> [] /\ 0 < 2 /\
  compression_level (GravitationalMemory_init (F:=Q) 2) <> 0 /\
  0 <= total_bits (stats (GravitationalMemory_init (F:=Q) 2)) /\
  exists d1 m1 g1 d2 m2 g2,
    store_document (GravitationalMemory_init (F:=Q) 2) 1
      "alpha bravo charlie delta echo" 2 = Returned (d1, m1, g1) /\
    store_document m1 g1 "alpha bravo charlie delta echo" 2 = Returned (d2, m2, g2) /\
    doc_chunks d1 = 3 /\
    (doc_compression_ratio d2 < doc_compression_ratio d1)%Q /\
    (doc_compression_ratio d2 == doc_compression_ratio d1 / 2)%Q.
Proof.
  assert (Hword : split "alpha bravo charlie delta echo" <> []) by discriminate.
  assert (Hlevel : compression_level (GravitationalMemory_init (F:=Q) 2) <> 0)
    by discriminate.
  assert (Hbits : 0 <= total_bits (stats (GravitationalMemory_init (F:=Q) 2)))
    by (cbn; lia).
  split; [exact Hword|]. split; [lia|]. split; [exact Hlevel|]. split; [exact Hbits|].
  destruct (repeated_store_document_ratio (GravitationalMemory_init (F:=Q) 2) 1
              "alpha bravo charlie delta echo" 2 Hword ltac:(lia) Hlevel Hbits)
    as (d1 & m1 & g1 & d2 & m2 & g2 & Hrun1 & Hrun2 & _ & _ & Hd1 & _ & _ & _ & Hlt & Hhalf).
  exists d1, m1, g1, d2, m2, g2.
  split; [exact Hrun1|]. split; [exact Hrun2|].
  split; [|split; [exact Hlt | apply Hhalf; reflexivity]].
  vm_compute in Hrun1. injection Hrun1 as <- _ _. reflexivity.
Defined.

(** ** The completion boundary *)

Section BoundaryClaims.
Context {F : Type} `{PyFloat F}.
Variable py_str : pyval F -> string.
Variable exn_str : exn -> string.
Variable Response : Type.
Variable requests_post : string -> dict string -> pyval F -> Z -> outcome Response.
Variable response_json : Response -> outcome (pyval F).

Local Abbreviation run_ask := (ask py_str exn_str Response requests_post response_json).

(** C6, as the code has it: with memory in use, the prompt opens with
    the line ["Context (from gravitational memory):"], then the
    retrieved context, a blank line, ["Question: "] and the question,
    a blank line and the closing instruction; it is posted as the
    content of the single user message. *)
Theorem ask_prompt_form (self : LLMRAGBooster F) (question : string) (top_k : Z) :
  let prompt :=
    "Context (from gravitational memory):" +:+ nl
      +:+ retrieve_relevant_context (memory self) question top_k +:+ nl +:+ nl
      +:+ "Question: " +:+ question +:+ nl +:+ nl
      +:+ "Answer based on the context above:" in
  build_prompt self question true top_k = prompt /\
  run_ask self question true top_k
  = match
      response ← requests_post (api_url self) (request_headers self)
                   (PDict [ ("model", PStr (model self));
                            ("messages",
                             PList [PDict [("role", PStr "user");
                                           ("content", PStr prompt)]]);
                            ("temperature", PFloat f_0_3);
                            ("max_tokens", PInt 500) ]) 30;
      data ← response_json response;
      extract_answer py_str data
    with
    | Returned answer => answer
    | Raised e => PStr ("ERROR calling LLM: " +:+ exn_str e)
    end.
Proof. split; reflexivity. Qed.

(** C7, as the code has it: [ask] turns every exception of the post,
    of the JSON parsing and of the walk through the response into a
    string that starts with ["ERROR calling LLM: "]; otherwise it
    returns the extracted value as it is: [X] for the choices shape,
    [Y] for an object with the single key ["response"], and
    [str(data)] for an object with none of the keys ["choices"],
    ["content"], ["response"], ["message"]. *)
Theorem ask_answers (self : LLMRAGBooster F) (question : string)
    (use_memory : bool) (top_k : Z) :
  let sent := requests_post (api_url self) (request_headers self)
                (request_json self (build_prompt self question use_memory top_k)) 30 in
  let answer := run_ask self question use_memory top_k in
  (forall e, sent = Raised e -> answer = PStr ("ERROR calling LLM: " +:+ exn_str e)) /\
  (forall response e,
      sent = Returned response -> response_json response = Raised e ->
      answer = PStr ("ERROR calling LLM: " +:+ exn_str e)) /\
  (forall response data,
      sent = Returned response -> response_json response = Returned data ->
      (forall e, extract_answer py_str data = Raised e ->
                 answer = PStr ("ERROR calling LLM: " +:+ exn_str e)) /\
      (forall value, extract_answer py_str data = Returned value -> answer = value) /\
      (forall X, data = PDict [("choices",
                                PList [PDict [("message", PDict [("content", X)])]])] ->
                 answer = X) /\
      (forall Y, data = PDict [("response", Y)] -> answer = Y) /\
      (forall items,
          data = PDict items ->
          dict_get items "choices" = None -> dict_get items "content" = None ->
          dict_get items "response" = None -> dict_get items "message" = None ->
          answer = PStr (py_str data))).
Proof.
  intros sent answer. subst answer. unfold ask, call_llm. fold sent.
  split; [|split].
  - intros e ->. reflexivity.
  - intros response e -> Hjson. rewrite bind_returned, Hjson. reflexivity.
  - intros response data -> Hjson. rewrite bind_returned, Hjson, bind_returned.
    split; [|split; [|split; [|split]]].
    + intros e ->. reflexivity.
    + intros value ->. reflexivity.
    + intros X ->. reflexivity.
    + intros Y ->. reflexivity.
    + intros items -> Hchoices Hcontent Hresponse Hmessage.
      unfold extract_answer, py_contains.
      rewrite Hchoices, Hcontent, Hresponse, Hmessage. reflexivity.
Qed.

End BoundaryClaims.

(** C6 as stated fails: the first line of the prompt is not ["Context:"]. *)
Lemma prompt_prefix_differs :
  retrieve_relevant_context (memory demo_booster) "alpha?" 8 = "alpha" /\
  build_prompt demo_booster "alpha?" true 8
  <> "Context:" +:+ nl +:+ "alpha" +:+ nl +:+ nl
       +:+ "Question: " +:+ "alpha?" +:+ nl +:+ nl
       +:+ "Answer based on the context above:".
Proof.
  split; [reflexivity|].
  intros E. vm_compute in E. discriminate E.
Qed.

(** C7 as stated fails: a response [{"response": 5}] makes [ask] return
    the number 5, not a string, and a response [{"choices": []}], which
    has none of the known shapes, gives the error string instead of
    the serialized response. *)
Lemma ask_returns_number_or_error :
  ask (fixed_str "{'response': 5}") show_exn (pyval Q)
      (answering (PDict [("response", PInt 5)])) Returned
      demo_booster "alpha?" true 8 = PInt 5 /\
  (forall s, ask (fixed_str "{'response': 5}") show_exn (pyval Q)
               (answering (PDict [("response", PInt 5)])) Returned
               demo_booster "alpha?" true 8 <> PStr s) /\
  ask (fixed_str "{'choices': []}") show_exn (pyval Q)
      (answering (PDict [("choices", PList [])])) Returned
      demo_booster "alpha?" true 8
  = PStr "ERROR calling LLM: list index out of range" /\
  ask (fixed_str "{'choices': []}") show_exn (pyval Q)
      (answering (PDict [("choices", PList [])])) Returned
      demo_booster "alpha?" true 8
  <> PStr (fixed_str "{'choices': []}" (PDict [("choices", PList [])])).
Proof.
  split; [reflexivity|]. split; [intros s E; vm_compute in E; discriminate E|].
  split; [reflexivity|]. intros E. vm_compute in E. discriminate E.
Qed.

Lemma ask_answers_witness :
  ask (fixed_str "{'response': 'Y'}") show_exn (pyval Q)
      (answering (PDict [("response", PStr "Y")])) Returned
      demo_booster "alpha?" true 8 = PStr "Y" /\
  ask (fixed_str "{'detail': 1}") show_exn (pyval Q)
      (answering (PDict [("detail", PInt 1)])) Returned
      demo_booster "alpha?" true 8 = PStr "{'detail': 1}" /\
  ask (fixed_str "") show_exn (pyval Q)
      (fun _ _ _ _ => Raised (BoundaryError "timed out")) Returned
      demo_booster "alpha?" true 8 = PStr "ERROR calling LLM: timed out".
Proof.
  split; [|split].
  - destruct (ask_answers (fixed_str "{'response': 'Y'}") show_exn (pyval Q)
                (answering (PDict [("response", PStr "Y")])) Returned
                demo_booster "alpha?" true 8) as (_ & _ & Hdata).
    destruct (Hdata _ _ eq_refl eq_refl) as (_ & _ & _ & Hresponse & _).
    apply (Hresponse (PStr "Y")). reflexivity.
  - destruct (ask_answers (fixed_str "{'detail': 1}") show_exn (pyval Q)
                (answering (PDict [("detail", PInt 1)])) Returned
                demo_booster "alpha?" true 8) as (_ & _ & Hdata).
    destruct (Hdata _ _ eq_refl eq_refl) as (_ & _ & _ & _ & Hother).
    apply (Hother [("detail", PInt 1)]); reflexivity.
  - destruct (ask_answers (fixed_str "") show_exn (pyval Q)
                (fun _ _ _ _ => Raised (BoundaryError "timed out")) Returned
                demo_booster "alpha?" true 8) as (Hpost & _).
    apply (Hpost (BoundaryError "timed out")). reflexivity.
Defined.

(** ** Two consequences used when reading the claims *)

(** Query tokens of three characters or fewer never score: no key of an
    index filled by [store_chunk] is that short. *)
Lemma score_chunks_long_words (idx : gmap string (list string)) (words : list string) :
  (forall w ids, idx !! w = Some ids -> 3 < len w) ->
  score_chunks idx (filter (fun w => 3 < len w) words) = score_chunks idx words.
Proof.
  intros Hkeys. unfold score_chunks. generalize (@nil (string * Z)).
  induction words as [|w words IH]; intros scores; [reflexivity|].
  rewrite filter_cons. destruct (decide (3 < len w)) as [Hlong|Hshort].
  - cbn [fold_left]. apply IH.
  - cbn [fold_left]. rewrite IH. f_equal.
    unfold score_word. destruct (idx !! w) as [ids|] eqn:E; [|reflexivity].
    exfalso. apply Hshort, (Hkeys w ids E).
Qed.

(** Two chunks of one document with the same text share their id:
    [store_document] counts two chunks and the store holds one. *)
Example repeated_chunk_text :
  exists d (m : GravitationalMemory Q) g',
    store_document (GravitationalMemory_init 2) 1 "echo echo" 1 = Returned (d, m, g') /\
    doc_chunks d = 2 /\ total_chunks (stats m) = 2 /\ total_bits (stats m) = 2 /\
    length (storage m) = 1%nat.
Proof. do 3 eexists. vm_compute. repeat split; reflexivity. Qed.

(** * Further properties of the module *)

(** ** The state bank and the encodable unit *)

Lemma in_range (a b x : Z) : In x (range a b) <-> a <= x < b.
Proof.
  unfold range. rewrite in_map_iff. split.
  - intros (k & <- & Hk). apply in_seq in Hk. lia.
  - intros Hx. exists (Z.to_nat (x - a)). split; [lia|]. apply in_seq. lia.
Qed.

Section BankExtras.
Context {F G : Type} `{PyFloat F} `{PyRandom F G}.

(** Raising the level by one appends the shell of the new level. *)
Lemma orbital_states_succ (L : Z) :
  0 <= L ->
  orbital_states (F:=F) (L + 1)
  = orbital_states L
    ++ flat_map (fun l =>
         map (fun m => mkOrbitalState (L + 1) l m 0
                         (fdiv f_neg_13_6 (f_of_Z ((L + 1) * (L + 1)))) (f_of_Z 0))
             (range (- l) (l + 1)))
       (range 0 (L + 1)).
Proof.
  intros HL. unfold orbital_states at 1.
  rewrite (range_snoc 1 (L + 1)), flat_map_app by lia.
  cbn [flat_map]. rewrite app_nil_r. reflexivity.
Qed.

(** X1: the state bank of level [L] holds exactly the slots with
    [1 <= n <= L], [0 <= l < n], [-l <= m <= l], each empty, with phase
    [0.0] and energy [-13.6 / (n * n)]. *)
Theorem state_bank_slots (L : Z) (s : OrbitalState F) :
  s ∈ orbital_states L <->
  1 <= n s <= L /\ 0 <= l s < n s /\ - l s <= m s <= l s /\
  occupied s = 0 /\
  energy s = fdiv f_neg_13_6 (f_of_Z (n s * n s)) /\
  phase s = f_of_Z 0.
Proof.
  rewrite list_elem_of_In. unfold orbital_states. rewrite in_flat_map. split.
  - intros (n0 & Hn & Hin). apply in_range in Hn.
    apply in_flat_map in Hin as (l0 & Hl & Hin). apply in_range in Hl.
    apply in_map_iff in Hin as (m0 & <- & Hm). apply in_range in Hm.
    cbn. repeat split; lia.
  - intros (Hn & Hl & Hm & Hocc & Hen & Hph).
    exists (n s). split; [apply in_range; lia|].
    apply in_flat_map. exists (l s). split; [apply in_range; lia|].
    apply in_map_iff. exists (m s). split; [|apply in_range; lia].
    destruct s as [n0 l0 m0 occ en ph]. cbn in *. subst. reflexivity.
Qed.

(** X2: slot addresses do not depend on the level: the bank of a level
    is an initial segment of the bank of every higher level. *)
Theorem state_bank_prefix (L L' : Z) :
  L <= L' ->
  orbital_states (F:=F) L `prefix_of` orbital_states L' /\
  forall i s, orbital_states (F:=F) L !! i = Some s -> orbital_states L' !! i = Some s.
Proof.
  intros Hle.
  assert (Hpre : orbital_states (F:=F) L `prefix_of` orbital_states L').
  { destruct (Z.le_gt_cases L 0) as [Hneg|Hpos].
    - rewrite (orbital_states_nonpositive L Hneg). apply prefix_nil.
    - replace L' with (L + Z.of_nat (Z.to_nat (L' - L))) by lia.
      induction (Z.to_nat (L' - L)) as [|d IH].
      + rewrite Z.add_0_r. reflexivity.
      + replace (L + Z.of_nat (S d)) with (L + Z.of_nat d + 1) by lia.
        rewrite orbital_states_succ by lia.
        etransitivity; [exact IH | apply prefix_app_r; reflexivity]. }
  split; [exact Hpre|].
  intros i s Hs. destruct Hpre as [rest ->]. apply lookup_app_l_Some, Hs.
Qed.

(** Slot [k] after the loop of [encode], the loop starting at index
    [i0]. *)
Lemma encode_loop_lookup (v : Z) (ss : list (OrbitalState F)) :
  forall i0 g k s',
    (encode_loop v (enumerate_from i0 ss) g).1 !! k = Some s' ->
    exists s, ss !! k = Some s /\
      n s' = n s /\ l s' = l s /\ m s' = m s /\ energy s' = energy s /\
      occupied s' = Z.land (Z.shiftr v (i0 + Z.of_nat k)) 1 /\
      (truthy (occupied s') = false -> phase s' = f_of_Z 0).
Proof.
  induction ss as [|s ss IH]; intros i0 g k s' Hk; [discriminate Hk|].
  cbn [enumerate_from encode_loop] in Hk.
  set (occ := Z.land (Z.shiftr v i0) 1) in *.
  destruct (truthy occ) eqn:Hocc.
  - destruct (random g) as [r g'].
    destruct (encode_loop v (enumerate_from (i0 + 1) ss) g') as [rest g2] eqn:E.
    destruct k as [|k]; cbn in Hk.
    + injection Hk as <-. exists s. cbn. rewrite Z.add_0_r.
      repeat split; try reflexivity. fold occ. congruence.
    + destruct (IH (i0 + 1) g' k s') as (s0 & Hs0 & Hrest); [rewrite E; exact Hk|].
      exists s0. split; [exact Hs0|].
      replace (i0 + Z.of_nat (S k)) with (i0 + 1 + Z.of_nat k) by lia. exact Hrest.
  - destruct (encode_loop v (enumerate_from (i0 + 1) ss) g) as [rest g2] eqn:E.
    destruct k as [|k]; cbn in Hk.
    + injection Hk as <-. exists s. cbn. rewrite Z.add_0_r.
      repeat split; reflexivity.
    + destruct (IH (i0 + 1) g k s') as (s0 & Hs0 & Hrest); [rewrite E; exact Hk|].
      exists s0. split; [exact Hs0|].
      replace (i0 + Z.of_nat (S k)) with (i0 + 1 + Z.of_nat k) by lia. exact Hrest.
Qed.

(** X3: [encode] writes bit [i] of the value into slot [i] and leaves
    everything else of the unit alone: the level, the field strength,
    the number of slots and the quantum numbers and energy of every
    slot; a slot left empty gets phase [0.0], and the operation counter
    goes up by one. *)
Theorem encode_writes_bits (b : GravitationalBit F) (v : Z) (g : G) :
  let b' := (encode b v g).1 in
  n_max b' = n_max b /\ nucleus_field b' = nucleus_field b /\
  operation_count b' = operation_count b + 1 /\
  length (states b') = length (states b) /\
  forall i s', states b' !! i = Some s' ->
    exists s, states b !! i = Some s /\
      n s' = n s /\ l s' = l s /\ m s' = m s /\ energy s' = energy s /\
      occupied s' = Z.land (Z.shiftr v (Z.of_nat i)) 1 /\
      (truthy (occupied s') = false -> phase s' = f_of_Z 0).
Proof.
  unfold encode, enumerate.
  destruct (encode_loop v (enumerate_from 0 (states b)) g) as [ss g'] eqn:E.
  cbn [fst n_max nucleus_field operation_count states].
  assert (Hss : ss = (encode_loop v (enumerate_from 0 (states b)) g).1)
    by (rewrite E; reflexivity).
  repeat split.
  - rewrite Hss. apply encode_loop_length.
  - intros i s' Hi. rewrite Hss in Hi.
    destruct (encode_loop_lookup v (states b) 0 g i s' Hi) as (s & Hs & Hrest).
    exists s. split; [exact Hs|]. exact Hrest.
Qed.

(** Bit [k] of what the loop of [decode] computes, for any slots. *)
Lemma decode_loop_testbit (ss : list (OrbitalState F)) :
  forall i acc k, 0 <= i -> 0 <= k ->
    Z.testbit (decode_loop acc (enumerate_from i ss)) k
    = Z.testbit acc k
      || ((i <=? k) &&
          match ss !! Z.to_nat (k - i) with
          | Some s => truthy (occupied s)
          | None => false
          end).
Proof.
  induction ss as [|s ss IH]; intros i acc k Hi Hk.
  - cbn. rewrite andb_false_r, orb_false_r. reflexivity.
  - cbn [enumerate_from decode_loop]. rewrite IH by lia.
    destruct (Z.eq_dec k i) as [->|Hne].
    + rewrite Z.sub_diag. change (Z.to_nat 0) with 0%nat.
      change ((s :: ss) !! 0%nat) with (Some s).
      replace (i + 1 <=? i) with false by lia.
      replace (i <=? i) with true by lia. cbn [andb].
      rewrite orb_false_r.
      destruct (truthy (occupied s)).
      * rewrite Z.lor_spec, Z.shiftl_spec, Z.sub_diag by lia. reflexivity.
      * rewrite ?orb_false_r. reflexivity.
    + assert (Hacc : Z.testbit (if truthy (occupied s)
                                then Z.lor acc (Z.shiftl 1 i) else acc) k
                     = Z.testbit acc k).
      { destruct (truthy (occupied s)); [|reflexivity].
        rewrite Z.lor_spec, Z.shiftl_spec by lia.
        destruct (Z.ltb_spec k i) as [Hlt|Hge].
        - rewrite (Z.testbit_neg_r 1 (k - i)) by lia. apply orb_false_r.
        - rewrite (Z.bits_above_log2 1 (k - i)) by (cbn; lia). apply orb_false_r. }
      rewrite Hacc. f_equal.
      destruct (Z.leb_spec (i + 1) k) as [Hle|Hgt].
      * replace (i <=? k) with true by lia. cbn [andb].
        replace (Z.to_nat (k - i)) with (S (Z.to_nat (k - (i + 1)))) by lia.
        reflexivity.
      * replace (i <=? k) with false by lia. reflexivity.
Qed.

(** What [decode] returns is its own remainder modulo [2 ^ len(states)]. *)
Lemma decode_mod (b : GravitationalBit F) :
  (decode b).1 = (decode b).1 mod 2 ^ len_states b.
Proof.
  unfold decode, enumerate, len_states. cbn [fst].
  apply Z.bits_inj'. intros k Hk.
  destruct (Z.ltb_spec k (Z.of_nat (length (states b)))) as [Hlt|Hge].
  - rewrite Z.mod_pow2_bits_low by lia. reflexivity.
  - rewrite Z.mod_pow2_bits_high by lia.
    rewrite decode_loop_testbit, Z.bits_0, Z.sub_0_r by lia.
    rewrite lookup_ge_None_2 by lia. rewrite andb_false_r. reflexivity.
Qed.

(** X4: for every unit, whatever its slots hold, [decode] returns a
    number in [0, 2 ^ len(states)) whose bit [i] is the truth value of
    slot [i]'s [occupied]; the slots themselves are not touched and the
    operation counter goes up by one. *)
Theorem decode_reads_slots (b : GravitationalBit F) :
  0 <= (decode b).1 < 2 ^ len_states b /\
  (forall i s, states b !! i = Some s ->
               Z.testbit (decode b).1 (Z.of_nat i) = truthy (occupied s)) /\
  states (decode b).2 = states b /\
  operation_count (decode b).2 = operation_count b + 1.
Proof.
  split; [|split; [|split; reflexivity]].
  - rewrite decode_mod. apply Z.mod_pos_bound.
    apply Z.pow_pos_nonneg; unfold len_states; lia.
  - intros i s Hs. unfold decode, enumerate. cbn [fst].
    rewrite decode_loop_testbit, Z.bits_0, Z.sub_0_r, Nat2Z.id, Hs by lia.
    destruct (Z.leb_spec 0 (Z.of_nat i)); [reflexivity | lia].
Qed.

(** X5: after [encode v], and any run of [propagate] calls,
    [verify_integrity v] answers true exactly when [v] fits the unit,
    [0 <= v < 2 ^ len(states)]: a negative value or one that needs more
    bits than the unit has slots is stored truncated and fails the
    check. *)
Theorem verify_integrity_iff_fits (b : GravitationalBit F) (v : Z) (g : G)
    (dts : list F) :
  (verify_integrity (propagate_all (encode b v g).1 dts) v).1 = true
  <-> 0 <= v < 2 ^ len_states b.
Proof.
  rewrite verify_integrity_decode, decode_propagate_all, decode_encode, Z.eqb_eq.
  assert (Hpos : 0 < 2 ^ len_states b)
    by (apply Z.pow_pos_nonneg; unfold len_states; lia).
  split.
  - intros Hmod. rewrite <- Hmod. apply Z.mod_pos_bound. exact Hpos.
  - apply Z.mod_small.
Qed.

(** X6: encoding what [decode] returned gives back the same pattern of
    occupied and empty slots. *)
Theorem encode_decode_same_occupancy (b : GravitationalBit F) (g : G) :
  map (fun s => truthy (occupied s)) (states (encode b (decode b).1 g).1)
  = map (fun s => truthy (occupied s)) (states b).
Proof.
  apply list_eq. intros i. rewrite !list_lookup_fmap.
  pose proof (encode_loop_length (decode b).1 (states b) 0 g) as Hlen.
  unfold encode, enumerate.
  destruct (encode_loop (decode b).1 (enumerate_from 0 (states b)) g) as [ss g'] eqn:E.
  cbn [fst states] in *.
  destruct (ss !! i) as [s'|] eqn:Hs'.
  - assert (Hlook : (encode_loop (decode b).1 (enumerate_from 0 (states b)) g).1 !! i
                    = Some s') by (rewrite E; exact Hs').
    destruct (encode_loop_lookup _ _ _ _ _ _ Hlook) as (s & Hs & _ & _ & _ & _ & Hocc & _).
    rewrite Hs. cbn. f_equal.
    rewrite Hocc, truthy_land_1 by lia.
    unfold decode, enumerate. cbn [fst].
    rewrite decode_loop_testbit, Z.bits_0, Z.sub_0_r, Z.add_0_l, Nat2Z.id, Hs by lia.
    destruct (Z.leb_spec 0 (Z.of_nat i)); [reflexivity | lia].
  - apply lookup_ge_None in Hs'. rewrite lookup_ge_None_2 by lia. reflexivity.
Qed.

End BankExtras.

Section PropagateExtras.
Context {F : Type} `{PyFloat F}.

(** X7: [propagate] changes nothing but the phase of occupied slots:
    level, field strength, number of slots and every slot's quantum
    numbers, [occupied] flag and energy stay as they are, an empty slot
    is left exactly as it was, and the operation counter goes up by
    one. *)
Theorem propagate_touches_phase_only (b : GravitationalBit F) (dt : F) :
  let b' := propagate b dt in
  n_max b' = n_max b /\ nucleus_field b' = nucleus_field b /\
  operation_count b' = operation_count b + 1 /\
  length (states b') = length (states b) /\
  forall i s, states b !! i = Some s ->
    exists s', states b' !! i = Some s' /\
      n s' = n s /\ l s' = l s /\ m s' = m s /\
      occupied s' = occupied s /\ energy s' = energy s /\
      (truthy (occupied s) = false -> s' = s) /\
      (truthy (occupied s) = true ->
       phase s' = fmod (fadd (phase s) (fmul (fmul (energy s) dt) (nucleus_field b)))
                       (fmul (f_of_Z 2) f_pi)).
Proof.
  cbn. repeat split; [apply length_map|].
  intros i s Hs. exists (propagate_state (nucleus_field b) dt s).
  rewrite list_lookup_fmap, Hs. split; [reflexivity|].
  unfold propagate_state. destruct (truthy (occupied s)); cbn;
    repeat split; try reflexivity; discriminate.
Qed.

End PropagateExtras.

Lemma state_bank_prefix_witness :
  1 <= 3 /\
  orbital_states (F:=Q) 1 `prefix_of` orbital_states 3 /\
  forall i s, orbital_states (F:=Q) 1 !! i = Some s -> orbital_states 3 !! i = Some s.
Proof. split; [lia|]. apply (state_bank_prefix (F:=Q) 1 3). lia. Defined.

(** ** What [store_chunk] leaves in the memory *)

Lemma hex_digit_range (c : ascii) (d : Z) : hex_digit c = Some d -> 0 <= d < 16.
Proof.
  unfold hex_digit. intros Hd.
  repeat match type of Hd with
         | (if ?t then _ else _) = _ => destruct t eqn:?
         end; inversion Hd; subst; lia.
Qed.

Lemma int16_from_range (s : string) : forall acc z,
  int16_from acc s = Returned z ->
  acc * 16 ^ Z.of_nat (String.length s) <= z
  < (acc + 1) * 16 ^ Z.of_nat (String.length s).
Proof.
  induction s as [|c s IH]; intros acc z Hz; cbn [int16_from String.length] in *.
  - injection Hz as <-. lia.
  - destruct (hex_digit c) as [d|] eqn:Hd; [|discriminate Hz].
    apply hex_digit_range in Hd. apply IH in Hz.
    rewrite Nat2Z.inj_succ, Z.pow_succ_r by lia.
    assert (0 < 16 ^ Z.of_nat (String.length s)) by (apply Z.pow_pos_nonneg; lia).
    nia.
Qed.

(** The integer read from an MD5 hex digest has 128 bits. *)
Lemma int16_hexdigest_range (s : string) (z : Z) :
  is_hexdigest s = true -> int16 s = Returned z -> 0 <= z < 2 ^ 128.
Proof.
  unfold is_hexdigest. intros Hs Hz. apply andb_true_iff in Hs as [Hlen _].
  apply Nat.eqb_eq in Hlen.
  destruct s as [|c s]; [discriminate Hlen|].
  unfold int16 in Hz. apply int16_from_range in Hz. rewrite Hlen in Hz.
  change (16 ^ Z.of_nat 32) with (2 ^ 128) in Hz. lia.
Qed.

Lemma occurrences_nonneg (c : string) (ids : list string) : 0 <= occurrences c ids.
Proof. unfold occurrences. lia. Qed.

Lemma occurrences_elem_of (c : string) (ids : list string) :
  occurrences c ids <> 0 <-> c ∈ ids.
Proof.
  induction ids as [|x ids IH].
  - split; [intros Hne; exfalso; apply Hne; reflexivity | intros Hin; inversion Hin].
  - rewrite occurrences_cons, elem_of_cons.
    pose proof (occurrences_nonneg c ids).
    destruct (decide (x = c)) as [->|Hne].
    + split; [auto | lia].
    + rewrite Z.add_0_l, IH. split; [auto | intros [->|Hin]; [congruence | exact Hin]].
Qed.

(** Lookup in the index after one chunk's words have been filed. *)
Lemma index_fold_lookup (chunk_id : string) (tokens : list string) :
  forall (idx : gmap string (list string)) (w : string),
    fold_left (fun idx t => <[t := default [] (idx !! t) ++ [chunk_id]]> idx) tokens idx !! w
    = if decide (occurrences w tokens = 0) then idx !! w
      else Some (default [] (idx !! w)
                 ++ replicate (Z.to_nat (occurrences w tokens)) chunk_id).
Proof.
  induction tokens as [|t tokens IH]; intros idx w.
  - cbn. reflexivity.
  - cbn [fold_left]. rewrite IH, occurrences_cons.
    pose proof (occurrences_nonneg w tokens) as Hocc.
    destruct (decide (t = w)) as [->|Hne].
    + rewrite lookup_insert_eq. cbn [default].
      rewrite (decide_False (P := 1 + occurrences w tokens = 0)) by lia.
      replace (Z.to_nat (1 + occurrences w tokens))
        with (S (Z.to_nat (occurrences w tokens))) by lia.
      destruct (decide (occurrences w tokens = 0)) as [->|_].
      * reflexivity.
      * unfold id. cbn [replicate]. rewrite <- app_assoc. reflexivity.
    + rewrite lookup_insert_ne by exact Hne. rewrite Z.add_0_l. reflexivity.
Qed.

Section StoreExtras.
Context {F G : Type} `{PyFloat F} `{PyRandom F G} `{PyHashlib}.

Lemma encode_frame (b : GravitationalBit F) (v : Z) (g : G) :
  operation_count (encode b v g).1 = operation_count b + 1 /\
  length (states (encode b v g).1) = length (states b).
Proof.
  pose proof (encode_loop_length v (states b) 0 g) as Hlen.
  unfold encode, enumerate.
  destruct (encode_loop v (enumerate_from 0 (states b)) g) as [ss g'].
  split; [reflexivity | exact Hlen].
Qed.

Lemma decode_loop_propagate_unit (b : GravitationalBit F) (dt : F) :
  decode_loop 0 (enumerate (states (propagate b dt)))
  = decode_loop 0 (enumerate (states b)).
Proof. apply (decode_propagate b dt). Qed.

(** The memory, the summary and the unit one [store_chunk] call
    produces, spelled out. *)
Lemma store_chunk_result (self : GravitationalMemory F) (g : G) (chunk_id txt : string) :
  exists digest unit g',
    int16 (md5_hexdigest txt) = Returned digest /\
    0 <= digest < 2 ^ 128 /\
    len_states unit = slot_count (F:=F) (compression_level self) /\
    (decode unit).1 = digest mod 2 ^ slot_count (F:=F) (compression_level self) /\
    operation_count unit = 4 /\
    store_chunk self g chunk_id txt
    = Returned
        (mkChunkSummary chunk_id (len_states unit) true,
         mkGravitationalMemory (compression_level self)
           (dict_set (storage self) chunk_id (mkFragment unit txt digest true))
           (fold_left (index_word chunk_id) (split (lower txt)) (index self))
           (mkStats (total_chunks (stats self) + 1) (total_bits (stats self) + 1)
              (Z.of_nat (size (fold_left (index_word chunk_id) (split (lower txt))
                                 (index self))))),
         g').
Proof.
  unfold store_chunk, GravitationalBit_init. rewrite bind_returned.
  destruct (int16_hexdigest _ (md5_hexdigest_shape txt)) as [z Hz].
  pose proof (int16_hexdigest_range _ _ (md5_hexdigest_shape txt) Hz) as Hrange.
  rewrite Hz, bind_returned.
  match goal with
  | |- context [encode ?b ?v g] =>
      pose proof (decode_encode b v g) as Hdec;
      pose proof (encode_frame b v g) as (Hops & Hlen);
      destruct (encode b v g) as [bit1 g1] eqn:E
  end.
  cbn [fst decode verify_integrity states operation_count len_states] in *.
  rewrite decode_loop_propagate_unit. cbn [states]. rewrite Z.eqb_refl.
  exists z,
    (mkGravitationalBit (n_max bit1) (nucleus_field bit1)
       (map (propagate_state (nucleus_field bit1) f_0_01) (states bit1))
       (operation_count bit1 + 1 + 1 + 1)),
    g1.
  split; [reflexivity|]. split; [exact Hrange|].
  split; [|split; [|split; [|reflexivity]]].
  - unfold len_states, slot_count. cbn [states]. rewrite length_map, Hlen. reflexivity.
  - cbn [states]. unfold enumerate in *. rewrite decode_loop_propagate, Hdec.
    apply Z.mod_mod. apply Z.pow_nonzero; unfold slot_count; lia.
  - cbn [operation_count]. lia.
Qed.

(** X8: what a [store_chunk] call leaves behind, for text of code
    points below 256 (the strings of this development, which
    [text.encode()] always accepts).  Under the chunk id the store
    then holds the text as given, the 128-bit integer of its MD5 digest,
    the integrity flag [True] and a unit of [slot_count(level)] slots
    that decodes to the digest modulo [2 ^ slot_count(level)] and has
    counted four operations; the summary repeats the id, the slot count
    and the flag. *)
Theorem store_chunk_stores_fragment (self : GravitationalMemory F) (g : G)
    (chunk_id txt : string) :
  exists summary self' g' digest fragment,
    store_chunk self g chunk_id txt = Returned (summary, self', g') /\
    int16 (md5_hexdigest txt) = Returned digest /\ 0 <= digest < 2 ^ 128 /\
    dict_get (storage self') chunk_id = Some fragment /\
    text fragment = txt /\ hash fragment = digest /\ integrity fragment = true /\
    len_states (bit fragment) = slot_count (F:=F) (compression_level self) /\
    (decode (bit fragment)).1
    = digest mod 2 ^ slot_count (F:=F) (compression_level self) /\
    operation_count (bit fragment) = 4 /\
    summary_chunk_id summary = chunk_id /\
    summary_states summary = slot_count (F:=F) (compression_level self) /\
    summary_integrity summary = true.
Proof.
  destruct (store_chunk_result self g chunk_id txt)
    as (digest & unit & g' & Hint & Hrange & Hlen & Hdec & Hops & Hrun).
  do 3 eexists. exists digest, (mkFragment unit txt digest true).
  split; [exact Hrun|]. split; [exact Hint|]. split; [exact Hrange|].
  cbn [storage text hash integrity bit summary_chunk_id summary_states summary_integrity].
  rewrite dict_get_set, decide_True by reflexivity.
  repeat split; assumption.
Qed.

(** X9: the index after [store_chunk]: for every word, the chunk id is
    appended to the word's list once per occurrence of the word among
    the chunk's index tokens, and entries of other words are left as
    they were; nothing is ever removed. *)
Theorem store_chunk_index_update (self : GravitationalMemory F) (g : G)
    (chunk_id txt : string) :
  exists summary self' g',
    store_chunk self g chunk_id txt = Returned (summary, self', g') /\
    forall w,
      index self' !! w
      = if decide (occurrences w (index_words txt) = 0) then index self !! w
        else Some (default [] (index self !! w)
                   ++ replicate (Z.to_nat (occurrences w (index_words txt))) chunk_id).
Proof.
  destruct (store_chunk_result self g chunk_id txt)
    as (digest & unit & g' & _ & _ & _ & _ & _ & Hrun).
  do 3 eexists. split; [exact Hrun|].
  intros w. cbn [index]. rewrite index_loop_index_words. apply index_fold_lookup.
Qed.

(** X10: at level 7 or more the unit has at least 128 slots, so the
    stored unit decodes to the whole MD5 integer of the text. *)
Theorem store_chunk_keeps_whole_digest (self : GravitationalMemory F) (g : G)
    (chunk_id txt : string) :
  7 <= compression_level self ->
  exists summary self' g' fragment,
    store_chunk self g chunk_id txt = Returned (summary, self', g') /\
    dict_get (storage self') chunk_id = Some fragment /\
    int16 (md5_hexdigest txt) = Returned (hash fragment) /\
    (decode (bit fragment)).1 = hash fragment.
Proof.
  intros Hlevel.
  destruct (store_chunk_result self g chunk_id txt)
    as (digest & unit & g' & Hint & Hrange & Hlen & Hdec & Hops & Hrun).
  do 3 eexists. exists (mkFragment unit txt digest true).
  split; [exact Hrun|].
  cbn [storage hash bit]. rewrite dict_get_set, decide_True by reflexivity.
  split; [reflexivity|]. split; [exact Hint|].
  rewrite Hdec. apply Z.mod_small.
  pose proof (slot_count_six (F:=F) (compression_level self) ltac:(lia)) as Hsix.
  assert (Hslots : 128 <= slot_count (F:=F) (compression_level self)) by nia.
  assert (2 ^ 128 <= 2 ^ slot_count (F:=F) (compression_level self))
    by (apply Z.pow_le_mono_r; lia).
  lia.
Qed.

End StoreExtras.

(** ** Memories built by [store_chunk] calls *)

Lemma dict_get_is_Some {V} (d : dict V) (k : string) :
  k ∈ dict_keys d -> is_Some (dict_get d k).
Proof.
  unfold dict_keys. induction d as [|[k' v'] d IH]; cbn; intros Hin.
  - inversion Hin.
  - destruct (String.eqb_spec k' k) as [->|Hne]; [eexists; reflexivity|].
    apply IH. apply elem_of_cons in Hin as [->|Hin]; [contradiction | exact Hin].
Qed.

Lemma dict_keys_set_elem {V} (d : dict V) (k c : string) (v : V) :
  c ∈ dict_keys (dict_set d k v) <-> c = k \/ c ∈ dict_keys d.
Proof.
  rewrite dict_keys_set. destruct (decide (k ∈ dict_keys d)) as [Hin|Hnin].
  - split; [auto | intros [->|Hc]; assumption].
  - rewrite elem_of_app, list_elem_of_singleton. tauto.
Qed.

Lemma dict_keys_set_NoDup {V} (d : dict V) (k : string) (v : V) :
  NoDup (dict_keys d) -> NoDup (dict_keys (dict_set d k v)).
Proof.
  intros Hnd. rewrite dict_keys_set.
  destruct (decide (k ∈ dict_keys d)) as [Hin|Hnin]; [exact Hnd|].
  apply NoDup_app. split; [exact Hnd|]. split.
  - intros c Hc Hc'. apply list_elem_of_singleton in Hc' as ->. contradiction.
  - apply NoDup_singleton.
Qed.

Section InvariantFacts.
Context {F G : Type} `{PyFloat F} `{PyRandom F G} `{PyHashlib}.

Lemma memory_invariant_init (L : Z) :
  memory_invariant L (GravitationalMemory_init (F:=F) L).
Proof.
  unfold memory_invariant, GravitationalMemory_init. cbn.
  repeat split; try constructor.
  all: try (intros; discriminate).
  all: rewrite lookup_empty in *; discriminate.
Qed.

Lemma memory_invariant_store_chunk (L : Z) (self self' : GravitationalMemory F)
    (g g' : G) (chunk_id txt : string) (summary : ChunkSummary) :
  memory_invariant L self ->
  store_chunk self g chunk_id txt = Returned (summary, self', g') ->
  memory_invariant L self'.
Proof.
  intros (Hlevel & Hcount & Hkeywords & Hnodup & Hindex & Hfrag) Hrun.
  destruct (store_chunk_result self g chunk_id txt)
    as (digest & unit & g1 & Hint & Hrange & Hlen & Hdec & Hops & Hrun').
  rewrite Hrun' in Hrun. injection Hrun as _ Hself _. subst self'.
  unfold memory_invariant.
  cbn [compression_level stats storage index total_chunks total_bits indexed_keywords].
  split; [exact Hlevel|]. split; [lia|]. split; [reflexivity|].
  split; [apply dict_keys_set_NoDup, Hnodup|]. split.
  - intros w ids. rewrite index_loop_index_words, index_fold_lookup.
    fold (index_words txt).
    destruct (decide (occurrences w (index_words txt) = 0)) as [Hzero|Hocc].
    + intros Hw. destruct (Hindex w ids Hw) as (Hlong & Hne & Hin).
      split; [exact Hlong|]. split; [exact Hne|].
      intros c Hc. apply dict_keys_set_elem. right. apply Hin, Hc.
    + intros Hw. injection Hw as <-.
      pose proof (occurrences_nonneg w (index_words txt)) as Hpos.
      apply occurrences_elem_of in Hocc as Hmem.
      unfold index_words in Hmem. apply list_elem_of_filter in Hmem as [Hlong _].
      split; [exact Hlong|].
      destruct (Z.to_nat (occurrences w (index_words txt))) as [|k] eqn:Hk; [lia|].
      split; [destruct (default [] (index self !! w)); discriminate|].
      intros c Hc. apply dict_keys_set_elem.
      apply elem_of_app in Hc as [Hold|Hnew].
      * right. destruct (index self !! w) as [old|] eqn:Hw; [|inversion Hold].
        destruct (Hindex w old Hw) as (_ & _ & Hin). apply Hin, Hold.
      * left. apply elem_of_replicate in Hnew as [-> _]. reflexivity.
  - intros c fragment. rewrite dict_get_set.
    destruct (decide (chunk_id = c)) as [->|Hne].
    + intros Hc. injection Hc as <-.
      cbn [integrity bit text hash]. rewrite <- Hlevel.
      repeat split; assumption.
    + apply Hfrag.
Qed.

Lemma memory_invariant_store_chunks (L : Z) (calls : list (string * string)) :
  forall (self m : GravitationalMemory F) (g g' : G),
    memory_invariant L self ->
    store_chunks self g calls = Returned (m, g') ->
    memory_invariant L m.
Proof.
  induction calls as [|[chunk_id txt] calls IH]; intros self m g g' Hinv Hrun.
  - cbn in Hrun. injection Hrun as <- _. exact Hinv.
  - cbn [store_chunks] in Hrun.
    destruct (store_chunk_spec self g chunk_id txt) as (summary & self1 & g1 & Hcall & _).
    rewrite Hcall, bind_returned in Hrun.
    apply (IH self1 m g1 g'); [|exact Hrun].
    apply (memory_invariant_store_chunk L self self1 g g1 chunk_id txt summary Hinv Hcall).
Qed.

(** X11: every memory built by [store_chunk] calls on a new memory of
    level [L] keeps its level and its bookkeeping in step:
    [total_chunks] equals [total_bits], [indexed_keywords] is the number
    of keys of the index, every index key is longer than 3 characters
    and lists at least one id, every listed id is a key of the store,
    and every stored fragment has the integrity flag [True] and a unit
    of [slot_count(L)] slots that decodes to the fragment's hash modulo
    [2 ^ slot_count(L)], the hash being the MD5 integer of its text. *)
Theorem built_memory_invariants (L : Z) (g g' : G) (calls : list (string * string))
    (m : GravitationalMemory F) :
  store_chunks (GravitationalMemory_init L) g calls = Returned (m, g') ->
  compression_level m = L /\
  total_chunks (stats m) = total_bits (stats m) /\
  indexed_keywords (stats m) = Z.of_nat (size (index m)) /\
  NoDup (dict_keys (storage m)) /\
  (forall w ids, index m !! w = Some ids ->
     3 < len w /\ ids <> [] /\
     forall c, c ∈ ids -> c ∈ dict_keys (storage m)) /\
  (forall c fragment, dict_get (storage m) c = Some fragment ->
     integrity fragment = true /\
     len_states (bit fragment) = slot_count (F:=F) L /\
     int16 (md5_hexdigest (text fragment)) = Returned (hash fragment) /\
     (decode (bit fragment)).1 = hash fragment mod 2 ^ slot_count (F:=F) L).
Proof.
  intros Hrun.
  apply (memory_invariant_store_chunks L calls (GravitationalMemory_init L) m g g'
           (memory_invariant_init L) Hrun).
Qed.

End InvariantFacts.

(** ** More on retrieval *)

Lemma omap_all_None {A B} (f : A -> option B) (xs : list A) :
  (forall x, f x = None) -> omap f xs = [].
Proof.
  intros Hnone. induction xs as [|x xs IH]; [reflexivity|].
  cbn. rewrite Hnone. exact IH.
Qed.

Lemma omap_all_Some_length {A B} (f : A -> option B) (xs : list A) :
  (forall x, x ∈ xs -> is_Some (f x)) -> length (omap f xs) = length xs.
Proof.
  induction xs as [|x xs IH]; intros Hsome; [reflexivity|].
  cbn. destruct (Hsome x ltac:(left)) as [y ->]. cbn. f_equal.
  apply IH. intros z Hz. apply Hsome. right. exact Hz.
Qed.

Lemma dict_get_elem {V} (d : dict V) (k : string) (v : V) :
  NoDup (dict_keys d) -> (k, v) ∈ d -> dict_get d k = Some v.
Proof.
  unfold dict_keys. induction d as [|[k' v'] d IH]; cbn; intros Hnd Hin.
  - inversion Hin.
  - apply NoDup_cons in Hnd as [Hnin Hnd].
    apply elem_of_cons in Hin as [Heq|Hin].
    + injection Heq as -> ->. rewrite String.eqb_refl. reflexivity.
    + destruct (String.eqb_spec k' k) as [->|Hne]; [|apply IH; assumption].
      exfalso. apply Hnin. apply list_elem_of_fmap. exists (k, v). split; [reflexivity | exact Hin].
Qed.

(** Looking the keys of an initial part of a dictionary up again gives
    the values of that part, in order. *)
Lemma omap_dict_get_keys {V B} (f : V -> B) (d part : dict V) :
  NoDup (dict_keys d) -> (forall kv, kv ∈ part -> kv ∈ d) ->
  omap (fun k => f <$> dict_get d k) (dict_keys part) = map (fun kv => f kv.2) part.
Proof.
  intros Hnd. induction part as [|[k v] part IH]; intros Hsub; [reflexivity|].
  cbn. rewrite (dict_get_elem d k v Hnd) by (apply Hsub; left). cbn. f_equal.
  apply IH. intros kv Hkv. apply Hsub. right. exact Hkv.
Qed.

Lemma slice_to_map {A B} (f : A -> B) (k : Z) (xs : list A) :
  slice_to k (map f xs) = map f (slice_to k xs).
Proof.
  unfold slice_to. rewrite length_map.
  destruct (0 <=? k); symmetry; apply fmap_take.
Qed.

Lemma slice_to_subseteq {A} (k : Z) (xs : list A) (x : A) :
  x ∈ slice_to k xs -> x ∈ xs.
Proof.
  unfold slice_to. destruct (0 <=? k); intros Hx;
    apply list_elem_of_lookup in Hx as [i Hi];
    apply lookup_take_Some in Hi as [Hi _];
    apply list_elem_of_lookup; exists i; exact Hi.
Qed.

Lemma slice_to_NoDup {A} (k : Z) (xs : list A) : NoDup xs -> NoDup (slice_to k xs).
Proof.
  intros Hnd. unfold slice_to.
  destruct (0 <=? k); (eapply sublist_NoDup; [exact Hnd | apply sublist_take]).
Qed.

Lemma slice_to_length {A} (k : Z) (xs : list A) :
  0 <= k -> Z.of_nat (length (slice_to k xs)) <= k.
Proof.
  intros Hk. unfold slice_to. replace (0 <=? k) with true by lia.
  rewrite length_take. lia.
Qed.

Lemma hits_elem_of (idx : gmap string (list string)) (words : list string) (c : string) :
  c ∈ hits idx words -> exists w ids, idx !! w = Some ids /\ c ∈ ids.
Proof.
  unfold hits. rewrite list_elem_of_In, in_flat_map.
  intros (w & _ & Hc). apply list_elem_of_In in Hc.
  destruct (idx !! w) as [ids|] eqn:E; [|inversion Hc].
  exists w, ids. split; [exact E | exact Hc].
Qed.

Section RetrievalExtras.
Context {F G : Type} `{PyFloat F} `{PyRandom F G} `{PyHashlib}.

(** X12: on a memory whose store is empty, retrieval returns the empty
    string for every query and every [top_k]. *)
Theorem retrieve_from_empty_store (self : GravitationalMemory F) (query : string)
    (top_k : Z) :
  storage self = [] -> retrieve_relevant_context self query top_k = EmptyString.
Proof.
  intros Hempty. unfold retrieve_relevant_context.
  rewrite omap_all_None; [reflexivity|].
  intros c. rewrite Hempty. reflexivity.
Qed.

(** X13: when no query token has an index entry -- in particular when
    no word of the query is longer than 3 characters -- retrieval falls
    back to the first [top_k] fragments in the order they were first
    stored, their texts joined by a blank line. *)
Theorem retrieve_falls_back_to_store_order (self : GravitationalMemory F)
    (query : string) (top_k : Z) :
  NoDup (dict_keys (storage self)) ->
  ((forall w, w ∈ split query -> len w <= 3) \/
   hits (index self) (query_words query) = []) ->
  top_chunks self query top_k = slice_to top_k (dict_keys (storage self)) /\
  retrieve_relevant_context self query top_k
  = join (nl +:+ nl) (map (fun kv => text kv.2) (slice_to top_k (storage self))).
Proof.
  intros Hnd Hmiss.
  assert (Hhits : hits (index self) (query_words query) = []).
  { destruct Hmiss as [Hshort|Hhits]; [|exact Hhits].
    unfold query_words.
    replace (filter (fun w => 3 < len w) (split query)) with (@nil string);
      [reflexivity|].
    symmetry. induction (split query) as [|w ws IH]; [reflexivity|].
    rewrite filter_cons, decide_False.
    - apply IH. intros w' Hw'. apply Hshort. right. exact Hw'.
    - pose proof (Hshort w ltac:(left)). lia. }
  assert (Htop : top_chunks self query top_k = slice_to top_k (dict_keys (storage self))).
  { unfold top_chunks, score_chunks. rewrite score_chunks_hits, Hhits. reflexivity. }
  split; [exact Htop|].
  unfold retrieve_relevant_context. rewrite Htop. f_equal.
  unfold dict_keys at 1. rewrite slice_to_map.
  apply (omap_dict_get_keys text (storage self) (slice_to top_k (storage self)) Hnd).
  intros kv. apply slice_to_subseteq.
Qed.

(** X14: on a memory built by [store_chunk] calls, with [top_k >= 0],
    retrieval selects at most [top_k] chunk ids, no id twice, all of
    them keys of the store, and returns one text per selected id. *)
Theorem retrieve_selects_stored_chunks (L : Z) (g g' : G)
    (calls : list (string * string)) (m : GravitationalMemory F)
    (query : string) (top_k : Z) :
  store_chunks (GravitationalMemory_init L) g calls = Returned (m, g') ->
  0 <= top_k ->
  Z.of_nat (length (top_chunks m query top_k)) <= top_k /\
  NoDup (top_chunks m query top_k) /\
  (forall c, c ∈ top_chunks m query top_k -> c ∈ dict_keys (storage m)) /\
  length (omap (fun c => text <$> dict_get (storage m) c) (top_chunks m query top_k))
  = length (top_chunks m query top_k).
Proof.
  intros Hrun Hk.
  pose proof (memory_invariant_store_chunks L calls (GravitationalMemory_init L) m g g'
                (memory_invariant_init L) Hrun)
    as (_ & _ & _ & Hnd & Hindex & _).
  assert (Hsel : exists pool,
             top_chunks m query top_k = slice_to top_k pool /\ NoDup pool /\
             forall c, c ∈ pool -> c ∈ dict_keys (storage m)).
  { unfold top_chunks.
    destruct (score_chunks (index m) (query_words query)) as [|entry rest] eqn:E.
    - exists (dict_keys (storage m)). repeat split; auto.
    - exists (ranked (score_chunks (index m) (query_words query))).
      rewrite E. split; [reflexivity|]. rewrite <- E.
      assert (Hperm : ranked (score_chunks (index m) (query_words query))
                      ≡ₚ first_occurrences (hits (index m) (query_words query))).
      { unfold ranked. rewrite sorted_reverse_perm, score_chunks_keys. reflexivity. }
      split.
      + rewrite Hperm. apply NoDup_first_occurrences.
      + intros c Hc. rewrite Hperm in Hc.
        apply elem_of_first_occurrences, hits_elem_of in Hc as (w & ids & Hw & Hin).
        destruct (Hindex w ids Hw) as (_ & _ & Hsub). apply Hsub, Hin. }
  destruct Hsel as (pool & -> & Hpool & Hsub).
  assert (Hin : forall c, c ∈ slice_to top_k pool -> c ∈ dict_keys (storage m))
    by (intros c Hc; apply Hsub, (slice_to_subseteq top_k), Hc).
  split; [apply slice_to_length, Hk|].
  split; [apply slice_to_NoDup, Hpool|].
  split; [exact Hin|].
  apply omap_all_Some_length. intros c Hc.
  destruct (dict_get_is_Some (storage m) c (Hin c Hc)) as [fragment ->].
  eexists. reflexivity.
Qed.

End RetrievalExtras.

(** *** Letter case *)

Lemma lower_char_idempotent (c : ascii) : lower_char (lower_char c) = lower_char c.
Proof. destruct c as [[] [] [] [] [] [] [] []]; reflexivity. Qed.

Lemma lower_idempotent (s : string) : lower (lower s) = lower s.
Proof.
  induction s as [|c s IH]; cbn; [reflexivity|].
  rewrite lower_char_idempotent, IH. reflexivity.
Qed.

Lemma filter_map_commute {A B} (P : B -> Prop) `{forall y, Decision (P y)}
    (f : A -> B) (xs : list A) :
  filter P (map f xs) = map f (filter (fun x => P (f x)) xs).
Proof.
  induction xs as [|x xs IH]; [reflexivity|].
  cbn [map]. rewrite !filter_cons, IH.
  destruct (decide (P (f x))); reflexivity.
Qed.

Lemma query_words_lower (query : string) : query_words (lower query) = query_words query.
Proof.
  unfold query_words. rewrite split_lower, filter_map_commute, map_map.
  rewrite (list_filter_iff (fun x => 3 < len (lower x)) (fun w => 3 < len w))
    by (intros w; rewrite len_lower; reflexivity).
  apply map_ext. intros w. rewrite lower_idempotent. reflexivity.
Qed.

Lemma index_words_lower (txt : string) : index_words (lower txt) = index_words txt.
Proof. unfold index_words. rewrite lower_idempotent. reflexivity. Qed.

Section CaseExtras.
Context {F G : Type} `{PyFloat F} `{PyRandom F G} `{PyHashlib}.

(** X15: on text of code points below 256, where [lower] keeps the
    length of every word, keyword matching ignores letter case: a query
    and its lower-case form retrieve the same context, and storing a
    text files the chunk in the index under the same words as storing
    its lower-case form would. *)
Theorem retrieval_ignores_case (self : GravitationalMemory F) (g : G)
    (query chunk_id txt : string) (top_k : Z) :
  retrieve_relevant_context self (lower query) top_k
  = retrieve_relevant_context self query top_k /\
  exists s1 m1 g1 s2 m2 g2,
    store_chunk self g chunk_id txt = Returned (s1, m1, g1) /\
    store_chunk self g chunk_id (lower txt) = Returned (s2, m2, g2) /\
    index m1 = index m2.
Proof.
  split.
  - unfold retrieve_relevant_context, top_chunks. rewrite query_words_lower. reflexivity.
  - destruct (store_chunk_result self g chunk_id txt)
      as (d1 & u1 & g1 & _ & _ & _ & _ & _ & Hrun1).
    destruct (store_chunk_result self g chunk_id (lower txt))
      as (d2 & u2 & g2 & _ & _ & _ & _ & _ & Hrun2).
    do 6 eexists. split; [exact Hrun1|]. split; [exact Hrun2|].
    cbn [index]. rewrite lower_idempotent. reflexivity.
Qed.

End CaseExtras.

(** ** More on documents *)

Lemma range_step_empty (n step : Z) :
  0 <= n -> (n = 0 /\ step <> 0) \/ step < 0 -> range_step 0 n step = Returned [].
Proof.
  intros Hn Hcase. unfold range_step.
  replace (step =? 0) with false by lia.
  destruct (Z.ltb_spec 0 step) as [Hpos|Hneg].
  - assert (n = 0) by lia. subst n.
    rewrite Z.sub_0_r, Z.add_0_l, Z.div_small by lia. reflexivity.
  - assert (Hq : (0 - n - step - 1) / - step < 1)
      by (apply Z.div_lt_upper_bound; lia).
    replace (Z.to_nat ((0 - n - step - 1) / - step)) with O by lia. reflexivity.
Qed.

(** The pieces of [c] consecutive elements cover the list. *)
Lemma pieces_concat {A} (c : nat) : forall (count : nat) (xs : list A),
  (length xs <= count * c)%nat ->
  concat (map (fun k => take c (drop (k * c) xs)) (seq 0 count)) = xs.
Proof.
  induction count as [|count IH]; intros xs Hlen.
  - destruct xs; [reflexivity | cbn in Hlen; lia].
  - cbn [seq map concat]. rewrite <- seq_shift, map_map.
    rewrite (map_ext _ (fun k => take c (drop (k * c) (drop c xs)))).
    + rewrite IH by (rewrite length_drop; lia).
      cbn [Nat.mul drop]. apply take_drop.
    + intros k. rewrite drop_drop. do 2 f_equal; lia.
Qed.

Lemma piece_start (chunk_size : Z) (k : nat) (xs : list string) :
  0 < chunk_size ->
  slice (0 + Z.of_nat k * chunk_size) (0 + Z.of_nat k * chunk_size + chunk_size) xs
  = take (Z.to_nat chunk_size) (drop (k * Z.to_nat chunk_size) xs).
Proof.
  intros Hc. unfold slice.
  replace (Z.to_nat (0 + Z.of_nat k * chunk_size + chunk_size
                     - (0 + Z.of_nat k * chunk_size)))
    with (Z.to_nat chunk_size) by (f_equal; lia).
  replace (Z.to_nat (0 + Z.of_nat k * chunk_size))
    with (k * Z.to_nat chunk_size)%nat by nia.
  reflexivity.
Qed.

Lemma ceil_div_bounds (n c : Z) :
  0 <= n -> 0 < c ->
  n <= (n + c - 1) / c * c /\ ((n + c - 1) / c - 1) * c < n \/ n = 0.
Proof.
  intros Hn Hc. destruct (Z.eq_dec n 0) as [->|Hne]; [right; reflexivity | left].
  pose proof (Z.div_mod (n + c - 1) c ltac:(lia)).
  pose proof (Z.mod_pos_bound (n + c - 1) c Hc). nia.
Qed.

Section DocumentExtras.
Context {F G : Type} `{PyFloat F} `{PyRandom F G} `{PyHashlib}.

(** X16: degenerate [store_document] calls.  A chunk size of 0 raises
    [ValueError] before anything is stored.  With a negative chunk
    size, or with a text that has no word (empty or all whitespace) and
    a non-zero chunk size, the call returns, reports 0 chunks, and
    leaves the memory and the random generator exactly as they were;
    on a memory with no chunk yet the reported ratio is 0. *)
Theorem store_document_degenerate (self : GravitationalMemory F) (g : G)
    (txt : string) (chunk_size : Z) :
  store_document self g txt 0 = Raised ValueError /\
  ((split txt = [] /\ chunk_size <> 0) \/ chunk_size < 0 ->
   exists summary,
     store_document self g txt chunk_size = Returned (summary, self, g) /\
     doc_chunks summary = 0 /\
     doc_bits summary = total_bits (stats self) /\
     doc_indexed_keywords summary = indexed_keywords (stats self) /\
     (total_bits (stats self) = 0 -> doc_compression_ratio summary = 0%Q)).
Proof.
  split; [reflexivity|].
  intros Hcase. unfold store_document.
  rewrite range_step_empty; [|lia|].
  - rewrite bind_returned. cbn [store_document_loop].
    rewrite bind_returned. cbn [mret outcome_ret].
    eexists. split; [reflexivity|]. cbn. repeat split.
    intros ->. reflexivity.
  - destruct Hcase as [[-> Hne]|Hneg]; [left; split; [reflexivity | exact Hne] | right; exact Hneg].
Qed.

(** X17: with a positive chunk size the chunk loop cuts the words of
    the text into consecutive pieces that together are exactly the
    words, in order; there are [ceil(words / chunk_size)] pieces, none
    empty and none longer than the chunk size, and each chunk text
    handed to [store_chunk] is one piece joined by single blanks.  When
    the number of words is [chunk_size * k], there are exactly [k]
    pieces of [chunk_size] words each. *)
Theorem store_document_pieces (txt : string) (chunk_size : Z) :
  0 < chunk_size ->
  let words := split txt in
  exists starts,
    range_step 0 (Z.of_nat (length words)) chunk_size = Returned starts /\
    let pieces := map (fun i => slice i (i + chunk_size) words) starts in
    map snd (document_calls words chunk_size starts) = map (join " ") pieces /\
    concat pieces = words /\
    Z.of_nat (length pieces) = (Z.of_nat (length words) + chunk_size - 1) / chunk_size /\
    Forall (fun piece => 0 < Z.of_nat (length piece) <= chunk_size) pieces /\
    forall k, Z.of_nat (length words) = chunk_size * k ->
              Z.of_nat (length pieces) = k /\
              Forall (fun piece => Z.of_nat (length piece) = chunk_size) pieces.
Proof.
  intros Hc words.
  set (n := Z.of_nat (length words)).
  set (count := Z.to_nat ((n + chunk_size - 1) / chunk_size)).
  assert (Hq : 0 <= (n + chunk_size - 1) / chunk_size)
    by (apply Z.div_pos; lia).
  exists (map (fun k => 0 + Z.of_nat k * chunk_size) (seq 0 count)).
  split.
  { unfold range_step. replace (chunk_size =? 0) with false by lia.
    replace (0 <? chunk_size) with true by lia.
    rewrite Z.sub_0_r. reflexivity. }
  assert (Hpieces :
            map (fun i => slice i (i + chunk_size) words)
                (map (fun k => 0 + Z.of_nat k * chunk_size) (seq 0 count))
            = map (fun k => take (Z.to_nat chunk_size)
                              (drop (k * Z.to_nat chunk_size) words)) (seq 0 count)).
  { rewrite map_map. apply map_ext. intros k. apply piece_start, Hc. }
  cbn zeta. rewrite Hpieces.
  destruct (ceil_div_bounds n chunk_size ltac:(lia) Hc) as [[Hup Hlow]|Hzero].
  2:{ assert (Hwords : words = []) by (destruct words; [reflexivity | cbn in n; lia]).
      assert (Hcount : count = O).
      { unfold count. rewrite Hzero, Z.add_0_l, Z.div_small by lia. reflexivity. }
      rewrite Hcount, Hwords. cbn.
      split; [reflexivity|]. split; [reflexivity|].
      split; [rewrite Z.div_small by lia; reflexivity|].
      split; [constructor|].
      intros k Hk. split; [nia | constructor]. }
  assert (Hpiece : forall k piece,
             map (fun k => take (Z.to_nat chunk_size)
                             (drop (k * Z.to_nat chunk_size) words)) (seq 0 count) !! k
             = Some piece ->
             Z.of_nat (length piece)
             = Z.min chunk_size (n - Z.of_nat k * chunk_size) /\ Z.of_nat k < Z.of_nat count).
  { intros k piece Hk. rewrite list_lookup_fmap in Hk.
    destruct (seq 0 count !! k) as [k'|] eqn:Hseq; [|discriminate Hk].
    apply lookup_seq in Hseq as [-> Hlt]. injection Hk as <-.
    rewrite length_take, length_drop. fold n. unfold n. split; [nia | lia]. }
  split.
  { unfold document_calls. rewrite !map_map. apply map_ext_in.
    intros k _. cbn [snd]. rewrite piece_start by exact Hc. reflexivity. }
  split.
  { apply pieces_concat. unfold count, n in *. nia. }
  split.
  { rewrite length_map, length_seq. unfold count. lia. }
  split.
  { apply Forall_lookup. intros k piece Hk.
    destruct (Hpiece k piece Hk) as [Hlen Hlt]. unfold count in Hlt. nia. }
  intros k Hk.
  assert (Hcountk : (n + chunk_size - 1) / chunk_size = k).
  { rewrite Hk. replace (chunk_size * k + chunk_size - 1)
      with (k * chunk_size + (chunk_size - 1)) by lia.
    rewrite Z.div_add_l, Z.div_small by lia. lia. }
  split.
  { rewrite length_map, length_seq. unfold count. lia. }
  apply Forall_lookup. intros j piece Hj.
  destruct (Hpiece j piece Hj) as [Hlen Hlt]. unfold count in Hlt. nia.
Qed.

End DocumentExtras.

(** ** Words, blanks and chunk texts *)

Lemma append_empty_r (s : string) : s +:+ EmptyString = s.
Proof.
  induction s as [|c s IH]; [reflexivity|].
  change (String c s +:+ EmptyString) with (String c (s +:+ EmptyString)).
  rewrite IH. reflexivity.
Qed.

Lemma append_snoc_assoc (s t : string) (c : ascii) :
  (s +:+ String c EmptyString) +:+ t = s +:+ String c t.
Proof.
  induction s as [|a s IH]; [reflexivity|].
  change (String a (((s +:+ String c EmptyString)) +:+ t) = String a (s +:+ String c t)).
  rewrite IH. reflexivity.
Qed.

Lemma no_space_snoc (s : string) (c : ascii) :
  no_space s = true -> is_space c = false -> no_space (s +:+ String c EmptyString) = true.
Proof.
  intros Hs Hc. induction s as [|a s IH].
  - cbn [no_space String.append]. change (EmptyString +:+ String c EmptyString)
      with (String c EmptyString). cbn [no_space]. rewrite Hc. reflexivity.
  - change (String a s +:+ String c EmptyString)
      with (String a (s +:+ String c EmptyString)).
    cbn [no_space] in *. apply andb_true_iff in Hs as [Ha Hs].
    rewrite Ha, IH by exact Hs. reflexivity.
Qed.

Lemma snoc_not_empty (s : string) (c : ascii) :
  String.eqb (s +:+ String c EmptyString) EmptyString = false.
Proof. destruct s; reflexivity. Qed.

(** Everything [split] returns is a word. *)
Lemma split_from_words (s : string) : forall cur,
  no_space cur = true -> Forall (fun w => is_word w = true) (split_from cur s).
Proof.
  induction s as [|c s IH]; intros cur Hcur; cbn.
  - destruct (String.eqb cur EmptyString) eqn:E; constructor; [|constructor].
    unfold is_word. rewrite E, Hcur. reflexivity.
  - destruct (is_space c) eqn:Hc.
    + destruct (String.eqb cur EmptyString) eqn:E; [apply IH; reflexivity|].
      constructor; [|apply IH; reflexivity].
      unfold is_word. rewrite E, Hcur. reflexivity.
    + apply IH, no_space_snoc; assumption.
Qed.

(** Reading a whitespace-free run moves it into the word being read. *)
Lemma split_from_run (w : string) : forall cur rest,
  no_space w = true -> split_from cur (w +:+ rest) = split_from (cur +:+ w) rest.
Proof.
  induction w as [|c w IH]; intros cur rest Hw.
  - rewrite append_empty_r. reflexivity.
  - cbn [no_space] in Hw. apply andb_true_iff in Hw as [Hc Hw]. apply negb_true_iff in Hc.
    change (String c w +:+ rest) with (String c (w +:+ rest)).
    cbn [split_from]. rewrite Hc, IH, append_snoc_assoc by exact Hw. reflexivity.
Qed.

Lemma concat_cons_cons (sep x y : string) (xs : list string) :
  String.concat sep (x :: y :: xs) = x +:+ sep +:+ String.concat sep (y :: xs).
Proof. reflexivity. Qed.

Lemma split_from_blank (w rest : string) :
  String.eqb w EmptyString = false ->
  split_from w (" " +:+ rest) = w :: split_from EmptyString rest.
Proof.
  intros Hne. change (" " +:+ rest) with (String " "%char rest).
  cbn [split_from]. change (is_space " "%char) with true. cbn iota.
  rewrite Hne. reflexivity.
Qed.

Lemma split_join_words (ws : list string) :
  Forall (fun w => is_word w = true) ws -> split (join " " ws) = ws.
Proof.
  unfold split, join. induction 1 as [|w ws Hw Hws IH]; [reflexivity|].
  unfold is_word in Hw. apply andb_true_iff in Hw as [Hne Hns].
  apply negb_true_iff in Hne.
  destruct ws as [|w2 ws].
  - change (String.concat " " [w]) with w. rewrite <- (append_empty_r w) at 1.
    rewrite split_from_run by exact Hns.
    change (EmptyString +:+ w) with w. cbn [split_from]. rewrite Hne. reflexivity.
  - rewrite concat_cons_cons, split_from_run by exact Hns.
    change (EmptyString +:+ w) with w.
    rewrite split_from_blank by exact Hne. f_equal. exact IH.
Qed.

(** X18: a chunk text splits back into exactly the words it was joined
    from: for every slice of the words of a text, joining the slice
    with blanks and splitting the result gives the slice again; so the
    keyword loop of [store_chunk] sees the very words [store_document]
    put into the chunk. *)
Theorem chunk_text_splits_back (txt : string) (i j : Z) :
  Forall (fun w => is_word w = true) (split txt) /\
  split (join " " (slice i j (split txt))) = slice i j (split txt) /\
  split (join " " (split txt)) = split txt.
Proof.
  assert (Hwords : Forall (fun w => is_word w = true) (split txt))
    by (apply split_from_words; reflexivity).
  split; [exact Hwords|]. split.
  - apply split_join_words. unfold slice. apply Forall_take, Forall_drop, Hwords.
  - apply split_join_words, Hwords.
Qed.

(** ** More response shapes *)

Section ShapeExtras.
Context {F : Type} `{PyFloat F}.
Variable py_str : pyval F -> string.

(** X19: the response shapes [ask] knows, in the order it tries them,
    for a decoded JSON object [data]: the key ["choices"] is looked at
    first and shadows all others; without it a ["content"] that is not
    a list is returned as it is, and one that is a list of objects gives
    the ["text"] of its first object; then comes ["response"], then the
    ["content"] of a ["message"] object; a missing ["text"] or
    ["content"] inside falls back to [str(data)]. *)
Theorem extract_answer_by_priority (items : list (string * pyval F)) :
  let data := PDict items in
  (forall first rest message X,
      dict_get items "choices" = Some (PList (PDict first :: rest)) ->
      dict_get first "message" = Some (PDict message) ->
      dict_get message "content" = Some X ->
      extract_answer py_str data = Returned X) /\
  (dict_get items "choices" = None ->
   (forall content,
       dict_get items "content" = Some content ->
       (forall parts, content <> PList parts) ->
       extract_answer py_str data = Returned content) /\
   (forall first rest,
       dict_get items "content" = Some (PList (PDict first :: rest)) ->
       extract_answer py_str data
       = Returned (default (PStr (py_str data)) (dict_get first "text"))) /\
   (dict_get items "content" = None ->
    (forall Y, dict_get items "response" = Some Y ->
               extract_answer py_str data = Returned Y) /\
    (forall message,
        dict_get items "response" = None ->
        dict_get items "message" = Some (PDict message) ->
        extract_answer py_str data
        = Returned (default (PStr (py_str data)) (dict_get message "content"))))).
Proof.
  intros data. unfold extract_answer, data. cbn [py_contains].
  split.
  - intros first rest message X Hc Hm Hx. rewrite Hc. cbn. rewrite Hc. cbn.
    rewrite Hm. cbn. rewrite Hx. reflexivity.
  - intros Hc. rewrite Hc. cbn [mbind outcome_bind]. split; [|split].
    + intros content Hcontent Hnot. rewrite Hcontent. cbn. rewrite Hcontent. cbn.
      destruct content; try reflexivity. exfalso. apply (Hnot items0). reflexivity.
    + intros first rest Hcontent. rewrite Hcontent. cbn. rewrite Hcontent. reflexivity.
    + intros Hcontent. rewrite Hcontent. cbn [mbind outcome_bind]. split.
      * intros Y Hy. rewrite Hy. cbn. rewrite Hy. reflexivity.
      * intros message Hr Hm. rewrite Hr. cbn [mbind outcome_bind]. rewrite Hm.
        cbn. rewrite Hm. reflexivity.
Qed.

(** X20: responses that are not the expected objects.  A decoded
    [null], boolean or number raises [TypeError] at the first key test;
    an object whose ["choices"] is an empty list raises [IndexError],
    and one whose ["choices"] is not a list, string or object raises
    [TypeError]; a list that contains none of the four key strings is
    returned as [str(data)]. *)
Theorem extract_answer_unexpected (items : list (string * pyval F))
    (elements : list (pyval F)) :
  extract_answer py_str PNone = Raised TypeError /\
  (forall b, extract_answer py_str (PBool b) = Raised TypeError) /\
  (forall z, extract_answer py_str (PInt z) = Raised TypeError) /\
  (forall x, extract_answer py_str (PFloat x) = Raised TypeError) /\
  (dict_get items "choices" = Some (PList []) ->
   extract_answer py_str (PDict items) = Raised IndexError) /\
  (forall z, dict_get items "choices" = Some (PInt z) ->
             extract_answer py_str (PDict items) = Raised TypeError) /\
  (dict_get items "choices" = Some PNone ->
   extract_answer py_str (PDict items) = Raised TypeError) /\
  (Forall (fun v => forall s, v = PStr s ->
                    s <> "choices" /\ s <> "content" /\ s <> "response" /\ s <> "message")
          elements ->
   extract_answer py_str (PList elements) = Returned (PStr (py_str (PList elements)))).
Proof.
  repeat split; try reflexivity.
  - intros Hc. unfold extract_answer. cbn [py_contains]. rewrite Hc. cbn.
    rewrite ?Hc. reflexivity.
  - intros z Hc. unfold extract_answer. cbn [py_contains]. rewrite Hc. cbn.
    rewrite ?Hc. reflexivity.
  - intros Hc. unfold extract_answer. cbn [py_contains]. rewrite Hc. cbn.
    rewrite ?Hc. reflexivity.
  - intros Hall. unfold extract_answer. cbn [py_contains].
    assert (Hnone : forall key,
               key = "choices" \/ key = "content" \/ key = "response" \/ key = "message" ->
               existsb (fun v => match v with
                                 | PStr s => String.eqb s key
                                 | _ => false
                                 end) elements = false).
    { intros key Hkey. induction Hall as [|v vs Hv Hvs IH]; [reflexivity|].
      cbn [existsb]. rewrite IH, orb_false_r.
      destruct v as [| | | |s| |]; try reflexivity.
      destruct (Hv s eq_refl) as (H1 & H2 & H3 & H4).
      apply String.eqb_neq. intuition congruence. }
    rewrite !Hnone by tauto. reflexivity.
Qed.

End ShapeExtras.

(** ** The module-level functions *)

Section LoadExtras.
Context {F G : Type} `{PyFloat F} `{PyRandom F G} `{PyHashlib}.
Variable format_2f : Q -> string.

(** What [store_document] returns for a positive chunk size, as a run of
    [store_chunk] calls. *)
Lemma store_document_result (self : GravitationalMemory F) (g : G)
    (txt : string) (chunk_size : Z) :
  0 < chunk_size ->
  exists starts m g',
    Z.of_nat (length starts)
    = (Z.of_nat (length (split txt)) + chunk_size - 1) / chunk_size /\
    store_chunks self g (document_calls (split txt) chunk_size starts) = Returned (m, g') /\
    store_document self g txt chunk_size
    = Returned
        (mkDocumentSummary
           (Z.of_nat (length starts))
           (total_bits (stats m))
           (if 0 <? total_bits (stats m) * compression_level m ^ 2
            then inject_Z (len txt) / inject_Z (total_bits (stats m) * compression_level m ^ 2)
            else 0)%Q
           (indexed_keywords (stats m))
           "100%",
         m, g').
Proof.
  intros Hsize. unfold store_document.
  destruct (range_step_positive 0 (Z.of_nat (length (split txt))) chunk_size Hsize)
    as (starts & Hstarts & Hlen).
  rewrite Hstarts, bind_returned, store_document_loop_calls.
  destruct (store_chunks_spec (document_calls (split txt) chunk_size starts) self g)
    as (m & g' & Hrun & _).
  exists starts, m, g'. rewrite Hrun, !bind_returned. cbn [mret outcome_ret app].
  split; [|split; [reflexivity|]].
  - rewrite Hlen, Z.sub_0_r. apply Z2Nat.id, Z.div_pos; lia.
  - unfold document_calls. rewrite !length_map. reflexivity.
Qed.

(** X21: [load].  Without a booster it returns the error dictionary
    and changes nothing.  With a booster and a text of code points
    below 256 (the strings of this development, which [text.encode()]
    always accepts) it returns
    [success] true, integrity ["100%"] and [ceil(words / 200)] chunks,
    keeps the booster's endpoint, key, model and level, and afterwards
    [stats] reports that many more chunks and units than before, the
    same [states_per_bit], and the keyword count [load] returned. *)
Theorem load_updates_stats (booster : LLMRAGBooster F) (g : G) (txt : string) :
  Allpath.load format_2f None g txt
  = Returned (ErrorReply "Not initialized. Call init() first.", None, g) /\
  exists result booster' g' before after,
    Allpath.load format_2f (Some booster) g txt
    = Returned (Reply result, Some booster', g') /\
    api_url booster' = api_url booster /\ api_key booster' = api_key booster /\
    model booster' = model booster /\
    booster_compression_level booster' = booster_compression_level booster /\
    load_success result = true /\ load_integrity result = "100%" /\
    load_chunks result = (Z.of_nat (length (split txt)) + 200 - 1) / 200 /\
    Allpath.stats (Some booster) = Reply before /\
    Allpath.stats (Some booster') = Reply after /\
    stats_chunks after = stats_chunks before + load_chunks result /\
    stats_bits after = stats_bits before + load_chunks result /\
    states_per_bit after = states_per_bit before /\
    stats_indexed_keywords after = load_indexed_keywords result.
Proof.
  split; [reflexivity|].
  destruct (store_document_result (memory booster) g txt 200 ltac:(lia))
    as (starts & m & g' & Hlen & Hrun & Hdoc).
  destruct (store_chunks_spec (document_calls (split txt) 200 starts) (memory booster) g)
    as (m0 & g0 & Hrun0 & _ & Hchunks & Hbits & _).
  rewrite Hrun in Hrun0. injection Hrun0 as <- <-.
  unfold document_calls in Hchunks, Hbits. rewrite length_map in Hchunks, Hbits.
  unfold Allpath.load, load_document. rewrite Hdoc, !bind_returned.
  cbn [mret outcome_ret].
  do 3 eexists. exists (get_stats booster). eexists.
  split; [reflexivity|].
  cbn [api_url api_key model booster_compression_level load_success load_integrity
       load_chunks load_indexed_keywords doc_chunks doc_integrity doc_indexed_keywords].
  unfold Allpath.stats, get_stats.
  cbn [stats_chunks stats_bits states_per_bit stats_indexed_keywords memory
       booster_compression_level].
  do 6 (split; [reflexivity|]). split; [exact Hlen|].
  do 2 (split; [reflexivity|]).
  cbn [stats_chunks stats_bits states_per_bit stats_indexed_keywords].
  split; [lia|]. split; [lia|]. split; reflexivity.
Qed.


End LoadExtras.

(** ** The further properties on concrete inputs *)

Lemma state_bank_slots_witness :
  mkOrbitalState 2 1 (-1) 0 (fdiv f_neg_13_6 (f_of_Z (2 * 2))) (f_of_Z 0)
  ∈ orbital_states (F:=Q) 2.
Proof.
  apply (proj2 (state_bank_slots (F:=Q) 2
                  (mkOrbitalState 2 1 (-1) 0 (fdiv f_neg_13_6 (f_of_Z (2 * 2))) (f_of_Z 0)))).
  cbn [n l m occupied energy phase]. repeat split; try reflexivity; lia.
Defined.

Lemma encode_writes_bits_witness :
  exists s',
    states (encode (mkGravitationalBit 2 1%Q (orbital_states 2) 0) 19 42).1 !! 1%nat
    = Some s' /\
    occupied s' = 1 /\ n s' = 2 /\ l s' = 0 /\ m s' = 0.
Proof.
  destruct (encode_writes_bits (mkGravitationalBit 2 1%Q (orbital_states 2) 0) 19 42)
    as (_ & _ & _ & Hlen & Hslots).
  destruct (lookup_lt_is_Some_2
              (states (encode (mkGravitationalBit 2 1%Q (orbital_states 2) 0) 19 42).1)
              1%nat) as [s' Hs'].
  { rewrite Hlen. vm_compute. lia. }
  exists s'. split; [exact Hs'|].
  destruct (Hslots 1%nat s' Hs') as (s & Hs & Hn & Hl & Hm & _ & Hocc & _).
  vm_compute in Hs. injection Hs as <-.
  rewrite Hocc, Hn, Hl, Hm. repeat split; reflexivity.
Defined.

Lemma decode_reads_slots_witness :
  let b := mkGravitationalBit 1 1%Q [mkOrbitalState 1 0 0 1 (-136 # 10)%Q (1 # 2)%Q] 0 in
  0 <= (decode b).1 < 2 ^ len_states b /\
  Z.testbit (decode b).1 (Z.of_nat 0) = true.
Proof.
  intros b. destruct (decode_reads_slots b) as (Hrange & Hbits & _).
  split; [exact Hrange|].
  apply (Hbits 0%nat (mkOrbitalState 1 0 0 1 (-136 # 10)%Q (1 # 2)%Q)). reflexivity.
Defined.

Lemma verify_integrity_iff_fits_witness :
  (verify_integrity
     (propagate_all (encode (mkGravitationalBit 2 1%Q (orbital_states 2) 0) 19 42).1
        [(1 # 100)%Q]) 19).1 = true.
Proof.
  apply (proj2 (verify_integrity_iff_fits
                  (mkGravitationalBit 2 1%Q (orbital_states 2) 0) 19 42 [(1 # 100)%Q])).
  vm_compute. split; congruence.
Defined.

Lemma propagate_touches_phase_only_witness :
  let empty_slot := mkOrbitalState 1 0 0 0 (-136 # 10)%Q 0%Q in
  let b := mkGravitationalBit 1 1%Q [empty_slot] 0 in
  exists s', states (propagate b (1 # 100)%Q) !! 0%nat = Some s' /\ s' = empty_slot.
Proof.
  intros empty_slot b.
  destruct (propagate_touches_phase_only b (1 # 100)%Q) as (_ & _ & _ & _ & Hslots).
  destruct (Hslots 0%nat empty_slot eq_refl)
    as (s' & Hs' & _ & _ & _ & _ & _ & Hsame & _).
  exists s'. split; [exact Hs' | apply Hsame; reflexivity].
Defined.

Lemma store_chunk_keeps_whole_digest_witness :
  7 <= compression_level (GravitationalMemory_init (F:=Q) 7) /\
  exists summary self' (g' : Z) fragment,
    store_chunk (GravitationalMemory_init (F:=Q) 7) 1 "a" "alpha"
    = Returned (summary, self', g') /\
    dict_get (storage self') "a" = Some fragment /\
    int16 (md5_hexdigest "alpha") = Returned (hash fragment) /\
    (decode (bit fragment)).1 = hash fragment.
Proof.
  assert (Hlevel : 7 <= compression_level (GravitationalMemory_init (F:=Q) 7))
    by (cbn; lia).
  split; [exact Hlevel|].
  apply (store_chunk_keeps_whole_digest (GravitationalMemory_init (F:=Q) 7) 1
           "a" "alpha" Hlevel).
Defined.

Lemma built_memory_invariants_witness :
  exists (m : GravitationalMemory Q) (g' : Z),
    store_chunks (GravitationalMemory_init 2) 1 [("a", "alpha"); ("b", "bravo")]
    = Returned (m, g') /\
    total_chunks (stats m) = total_bits (stats m) /\
    indexed_keywords (stats m) = Z.of_nat (size (index m)) /\
    forall w ids, index m !! w = Some ids -> 3 < len w.
Proof.
  destruct (store_chunks (GravitationalMemory_init (F:=Q) 2) 1
              [("a", "alpha"); ("b", "bravo")]) as [[m g']|e] eqn:Hrun;
    [|vm_compute in Hrun; discriminate Hrun].
  exists m, g'. split; [reflexivity|].
  destruct (built_memory_invariants 2 1 g' [("a", "alpha"); ("b", "bravo")] m Hrun)
    as (_ & Hcount & Hkeywords & _ & Hindex & _).
  split; [exact Hcount|]. split; [exact Hkeywords|].
  intros w ids Hw. apply (Hindex w ids Hw).
Defined.

Lemma retrieve_from_empty_store_witness :
  storage (GravitationalMemory_init (F:=Q) 15) = [] /\
  retrieve_relevant_context (GravitationalMemory_init (F:=Q) 15) "what is stored?" 8
  = EmptyString.
Proof.
  split; [reflexivity|].
  apply (retrieve_from_empty_store (GravitationalMemory_init (F:=Q) 15)). reflexivity.
Defined.

Lemma retrieve_falls_back_to_store_order_witness :
  NoDup (dict_keys (storage two_chunks_memory)) /\
  (forall w, w ∈ split "a is it" -> len w <= 3) /\
  top_chunks two_chunks_memory "a is it" 1 = slice_to 1 (dict_keys (storage two_chunks_memory)) /\
  retrieve_relevant_context two_chunks_memory "a is it" 1
  = join (nl +:+ nl) (map (fun kv => text kv.2) (slice_to 1 (storage two_chunks_memory))).
Proof.
  assert (Hnd : NoDup (dict_keys (storage two_chunks_memory))).
  { assert (Hkeys : dict_keys (storage two_chunks_memory) = ["a"; "b"]) by reflexivity.
    rewrite Hkeys. apply NoDup_cons. split; [|apply NoDup_singleton].
    intros Hin. apply list_elem_of_singleton in Hin. discriminate Hin. }
  assert (Hshort : forall w, w ∈ split "a is it" -> len w <= 3).
  { intros w Hw. apply list_elem_of_In in Hw. vm_compute in Hw.
    destruct Hw as [<-|[<-|[<-|[]]]]; vm_compute; discriminate. }
  split; [exact Hnd|]. split; [exact Hshort|].
  apply (retrieve_falls_back_to_store_order two_chunks_memory "a is it" 1 Hnd).
  left. exact Hshort.
Defined.

Lemma retrieve_selects_stored_chunks_witness :
  exists (m : GravitationalMemory Q) (g' : Z),
    store_chunks (GravitationalMemory_init 2) 1 [("a", "alpha"); ("b", "bravo")]
    = Returned (m, g') /\
    0 <= 1 /\
    Z.of_nat (length (top_chunks m "bravo alpha" 1)) <= 1 /\
    NoDup (top_chunks m "bravo alpha" 1) /\
    forall c, c ∈ top_chunks m "bravo alpha" 1 -> c ∈ dict_keys (storage m).
Proof.
  destruct (store_chunks (GravitationalMemory_init (F:=Q) 2) 1
              [("a", "alpha"); ("b", "bravo")]) as [[m g']|e] eqn:Hrun;
    [|vm_compute in Hrun; discriminate Hrun].
  exists m, g'. split; [reflexivity|]. split; [lia|].
  destruct (retrieve_selects_stored_chunks 2 1 g' [("a", "alpha"); ("b", "bravo")] m
              "bravo alpha" 1 Hrun ltac:(lia))
    as (Hlen & Hnd & Hsub & _).
  split; [exact Hlen|]. split; [exact Hnd | exact Hsub].
Defined.

Lemma store_document_degenerate_witness :
  split " " = [] /\ 200 <> 0 /\
  exists summary,
    store_document (GravitationalMemory_init (F:=Q) 15) 1 " " 200
    = Returned (summary, GravitationalMemory_init 15, 1) /\
    doc_chunks summary = 0 /\ doc_compression_ratio summary = 0%Q.
Proof.
  split; [reflexivity|]. split; [lia|].
  destruct (proj2 (store_document_degenerate (GravitationalMemory_init (F:=Q) 15) 1 " " 200))
    as (summary & Hrun & Hchunks & _ & _ & Hratio).
  { left. split; [reflexivity | lia]. }
  exists summary. split; [exact Hrun|]. split; [exact Hchunks|].
  apply Hratio. reflexivity.
Defined.

Lemma store_document_pieces_witness :
  0 < 2 /\
  exists starts,
    range_step 0 (Z.of_nat (length (split "alpha bravo charlie delta echo"))) 2
    = Returned starts /\
    concat (map (fun i => slice i (i + 2) (split "alpha bravo charlie delta echo")) starts)
    = split "alpha bravo charlie delta echo".
Proof.
  split; [lia|].
  destruct (store_document_pieces "alpha bravo charlie delta echo" 2 ltac:(lia))
    as (starts & Hstarts & _ & Hconcat & _).
  exists starts. split; [exact Hstarts | exact Hconcat].
Defined.

Lemma extract_answer_by_priority_witness :
  extract_answer (fixed_str "{'content': 'Z'}") (PDict [("content", PStr "Z")])
  = Returned (PStr "Z").
Proof.
  destruct (extract_answer_by_priority (F:=Q) (fixed_str "{'content': 'Z'}")
              [("content", PStr "Z")]) as (_ & Hrest).
  destruct (Hrest eq_refl) as (Hcontent & _).
  apply (Hcontent (PStr "Z")); [reflexivity | discriminate].
Defined.

Lemma extract_answer_unexpected_witness :
  extract_answer (fixed_str "{'choices': []}") (PDict [("choices", PList (@nil (pyval Q)))])
  = Raised IndexError.
Proof.
  destruct (extract_answer_unexpected (F:=Q) (fixed_str "{'choices': []}")
              [("choices", PList [])] [])
    as (_ & _ & _ & _ & Hempty & _).
  apply Hempty. reflexivity.
Defined.


(** The ratio string of that first load. *)
Example first_load_ratio_value :
  format_2f_exact (inject_Z (len "alpha bravo") / inject_Z (1 * 225))%Q +:+ times_sign
  = "0.05" +:+ times_sign.
Proof. vm_compute. reflexivity. Qed.

(** ** From storing to finding *)

Lemma occurrences_app (c : string) (xs ys : list string) :
  occurrences c (xs ++ ys) = occurrences c xs + occurrences c ys.
Proof.
  unfold occurrences. rewrite filter_app, length_app. lia.
Qed.

Lemma occurrences_replicate (c : string) (k : nat) :
  occurrences c (replicate k c) = Z.of_nat k.
Proof.
  induction k as [|k IH]; [reflexivity|].
  cbn [replicate]. rewrite occurrences_cons, decide_True, IH by reflexivity. lia.
Qed.

(** The visits of one query word are among the visits of the query. *)
Lemma occurrences_hits (idx : gmap string (list string)) (words : list string)
    (w c : string) :
  w ∈ words ->
  occurrences c (default [] (idx !! w)) <= occurrences c (hits idx words).
Proof.
  unfold hits. induction words as [|x words IH]; intros Hin; [inversion Hin|].
  cbn [flat_map]. rewrite occurrences_app.
  pose proof (occurrences_nonneg c (default [] (idx !! x))).
  pose proof (occurrences_nonneg c (flat_map (fun w => default [] (idx !! w)) words)).
  apply elem_of_cons in Hin as [->|Hin]; [lia|].
  specialize (IH Hin). lia.
Qed.

Section FindExtras.
Context {F G : Type} `{PyFloat F} `{PyRandom F G} `{PyHashlib}.

(** X23: what [store_chunk] stores, retrieval finds.  If a word is one
    of the index tokens of a chunk's text and one of the tokens of a
    query, then right after the chunk is stored the query scores the
    chunk at least as many points as the word occurs among the chunk's
    index tokens, the chunk is among the ranked candidates, and it is
    selected whenever [top_k] is at least the number of candidates. *)
Theorem stored_chunk_is_found (self : GravitationalMemory F) (g : G)
    (chunk_id txt query w : string) :
  w ∈ index_words txt -> w ∈ query_words query ->
  exists summary self' g',
    store_chunk self g chunk_id txt = Returned (summary, self', g') /\
    let scores := score_chunks (index self') (query_words query) in
    0 < occurrences w (index_words txt) <= score_of scores chunk_id /\
    chunk_id ∈ ranked scores /\
    forall top_k, Z.of_nat (length (ranked scores)) <= top_k ->
                  chunk_id ∈ top_chunks self' query top_k.
Proof.
  intros Hindexed Hasked.
  destruct (store_chunk_result self g chunk_id txt)
    as (digest & unit & g' & _ & _ & _ & _ & _ & Hrun).
  do 3 eexists. split; [exact Hrun|]. cbn [index]. cbn zeta.
  set (idx := fold_left (index_word chunk_id) (split (lower txt)) (index self)).
  pose proof (occurrences_nonneg w (index_words txt)) as Hnonneg.
  assert (Hpos : occurrences w (index_words txt) <> 0)
    by (apply occurrences_elem_of, Hindexed).
  assert (Hentry : idx !! w
                   = Some (default [] (index self !! w)
                           ++ replicate (Z.to_nat (occurrences w (index_words txt))) chunk_id)).
  { unfold idx. rewrite index_loop_index_words, index_fold_lookup.
    fold (index_words txt). rewrite decide_False by exact Hpos. reflexivity. }
  assert (Hscore : occurrences w (index_words txt)
                   <= score_of (score_chunks idx (query_words query)) chunk_id).
  { rewrite score_chunks_score.
    pose proof (occurrences_hits idx (query_words query) w chunk_id Hasked) as Hle.
    rewrite Hentry in Hle.
    change (default [] (Some ?x)) with x in Hle.
    rewrite occurrences_app, occurrences_replicate in Hle.
    pose proof (occurrences_nonneg chunk_id (default [] (index self !! w))). lia. }
  assert (Hranked : chunk_id ∈ ranked (score_chunks idx (query_words query))).
  { unfold ranked. rewrite sorted_reverse_perm, score_chunks_keys.
    apply elem_of_first_occurrences, occurrences_elem_of.
    rewrite <- score_chunks_score. lia. }
  split; [lia|]. split; [exact Hranked|].
  intros top_k Hk. unfold top_chunks. cbn [index]. fold idx.
  destruct (score_chunks idx (query_words query)) as [|entry rest] eqn:E.
  - inversion Hranked.
  - rewrite <- E in *. unfold slice_to.
    replace (0 <=? top_k) with true by lia.
    rewrite take_ge by lia. exact Hranked.
Qed.

End FindExtras.

Lemma stored_chunk_is_found_witness :
  "bravo" ∈ index_words "alpha bravo, BRAVO!" /\
  "bravo" ∈ query_words "Which bravo?" /\
  exists summary (self' : GravitationalMemory Q) (g' : Z),
    store_chunk two_chunks_memory 5 "c" "alpha bravo, BRAVO!" = Returned (summary, self', g') /\
    2 <= score_of (score_chunks (index self') (query_words "Which bravo?")) "c" /\
    "c" ∈ top_chunks self' "Which bravo?" 8.
Proof.
  assert (Hindexed : "bravo" ∈ index_words "alpha bravo, BRAVO!").
  { apply list_elem_of_In. vm_compute. right. left. reflexivity. }
  assert (Hasked : "bravo" ∈ query_words "Which bravo?").
  { apply list_elem_of_In. vm_compute. right. left. reflexivity. }
  split; [exact Hindexed|]. split; [exact Hasked|].
  destruct (stored_chunk_is_found two_chunks_memory 5 "c" "alpha bravo, BRAVO!"
              "Which bravo?" "bravo" Hindexed Hasked)
    as (summary & self' & g' & Hrun & Hscore & Hranked & Htop).
  exists summary, self', g'. split; [exact Hrun|].
  assert (Hocc : occurrences "bravo" (index_words "alpha bravo, BRAVO!") = 2)
    by (vm_compute; reflexivity).
  split; [rewrite Hocc in Hscore; lia|].
  apply Htop.
  vm_compute in Hrun. injection Hrun as _ <- _. vm_compute. discriminate.
Defined.
